(** * passport-ubcshib: a shallow embedding of the attribute mapper,
      the environment resolution, the strategy constructor and the logout
      middleware, with the properties of the specification settled on it.

    Sources embedded here:
    - [lib/attributes.js]: [ATTRIBUTE_MAPPINGS], [getFriendlyName],
      [mapAttributes];
    - [index.js]: [UBC_CONFIG], [loadPrivateKey], [extractCertFromMetadata],
      [fetchIdPCertificate], the [UBCStrategy] constructor with its
      [wrappedVerify] and [_fetchCertificate], and the [logout] middleware. *)

From Stdlib Require Import ZArith Ascii String List Bool Lia.
From stdpp Require Import base option list strings pretty gmap.

Local Open Scope string_scope.
Local Open Scope list_scope.
Local Set Warnings "-register-all".

(** ** JavaScript values and plain objects *)

Module JS.

(** The values that flow through the code.  Numbers are the integers (the
    code never computes with them; [NaN] is left out).  [VNative name] is the
    built-in found under [name] on [Object.prototype]: a function for every
    name except ["__proto__"], whose getter yields [Object.prototype]
    itself. *)
Inductive value : Type :=
| VUndefined
| VNull
| VBool (b : bool)
| VNum (n : Z)
| VStr (s : string)
| VArr (elems : list value)
| VObj (props : list (string * value))
| VNative (name : string).

(** A plain object ([{}] or an object literal): its own enumerable
    properties in enumeration order, each key once.  Every such object
    inherits from [Object.prototype]. *)
Definition obj : Type := list (string * value).

Definition keys (o : obj) : list string := map fst o.

(** Each own key occurs once. *)
Definition wf_obj (o : obj) : Prop := NoDup (keys o).

(** ToBoolean. *)
Definition truthy (v : value) : bool :=
  match v with
  | VUndefined | VNull => false
  | VBool b => b
  | VNum n => negb (n =? 0)%Z
  | VStr s => negb (String.eqb s "")
  | VArr _ | VObj _ | VNative _ => true
  end.

(** [a || b] and [a && b] on values. *)
Definition js_or (a b : value) : value := if truthy a then a else b.
Definition js_and (a b : value) : value := if truthy a then b else a.

(** The property names of [Object.prototype]. *)
Definition Object_prototype_names : list string :=
  [ "constructor"; "__defineGetter__"; "__defineSetter__"; "hasOwnProperty";
    "__lookupGetter__"; "__lookupSetter__"; "isPrototypeOf";
    "propertyIsEnumerable"; "toString"; "valueOf"; "__proto__";
    "toLocaleString" ].

Definition is_prototype_name (k : string) : bool :=
  existsb (String.eqb k) Object_prototype_names.

(** What a plain object inherits under key [k]. *)
Definition inherited (k : string) : value :=
  if is_prototype_name k then VNative k else VUndefined.

(** Own-property lookup. *)
Fixpoint own (o : obj) (k : string) : option value :=
  match o with
  | [] => None
  | (k', v) :: o' => if String.eqb k' k then Some v else own o' k
  end.

(** [o[k]] read: own property first, then the prototype. *)
Definition get (o : obj) (k : string) : value :=
  match own o k with
  | Some v => v
  | None => inherited k
  end.

(** CreateDataProperty / plain data-property write: replace in place or
    append. *)
Fixpoint set (o : obj) (k : string) (v : value) : obj :=
  match o with
  | [] => [(k, v)]
  | (k', v') :: o' =>
      if String.eqb k' k then (k', v) :: o' else (k', v') :: set o' k v
  end.

(** [o[k] = v] on a plain object.  Writing ["__proto__"] on an object that
    has no own property of that name runs the inherited setter, which creates
    no own property (the change of prototype it may perform is not
    tracked: results are read through their own properties). *)
Definition assign (o : obj) (k : string) (v : value) : obj :=
  if String.eqb k "__proto__" then
    match own o k with
    | Some _ => set o k v
    | None => o
    end
  else set o k v.

(** [Object.entries(o)]. *)
Definition entries (o : obj) : list (string * value) := o.

(** [{...o}]: the own enumerable properties, defined one by one on a fresh
    object. *)
Definition spread (o : obj) : obj :=
  fold_left (fun acc kv => set acc (fst kv) (snd kv)) (entries o) [].

Fixpoint join (sep : string) (l : list string) : string :=
  match l with
  | [] => ""
  | [s] => s
  | s :: l' => s +:+ sep +:+ join sep l'
  end.

(** ToPropertyKey on the values of the model (ToString). *)
Fixpoint to_key (v : value) : string :=
  match v with
  | VUndefined => "undefined"
  | VNull => "null"
  | VBool true => "true"
  | VBool false => "false"
  | VNum n => pretty n
  | VStr s => s
  | VArr l =>
      join ","
        (map (fun e => match e with
                       | VUndefined | VNull => ""
                       | _ => to_key e
                       end) l)
  | VObj _ => "[object Object]"
  | VNative name =>
      if String.eqb name "__proto__" then "[object Object]"
      else if String.eqb name "constructor"
           then "function Object() { [native code] }"
           else "function " +:+ name +:+ "() { [native code] }"
  end.

(** Errors thrown by the code. *)
Inductive error : Type :=
| Error (message : string)
| TypeError (message : string).

Inductive result (A : Type) : Type :=
| Ok (a : A)
| Throw (e : error).
Arguments Ok {A} a.
Arguments Throw {A} e.

(** [v.k] read on an arbitrary value: a [TypeError] on [undefined] and
    [null]; on the other non-objects the names read by this code
    ([entryPoint], [logoutUrl], [metadataUrl]) are not defined. *)
Definition member (v : value) (k : string) : result value :=
  match v with
  | VUndefined =>
      Throw (TypeError ("Cannot read properties of undefined (reading '"
                        +:+ k +:+ "')"))
  | VNull =>
      Throw (TypeError ("Cannot read properties of null (reading '"
                        +:+ k +:+ "')"))
  | VObj o => Ok (get o k)
  | _ => Ok VUndefined
  end.

End JS.

(** ** [lib/attributes.js] *)

Module Attributes.
Import JS.

Definition ATTRIBUTE_MAPPINGS : obj :=
  [ ("urn:mace:dir:attribute-def:ubcEduCwlPuid", VStr "ubcEduCwlPuid");
    ("urn:oid:1.3.6.1.4.1.60.6.1.6", VStr "ubcEduCwlPuid");
    ("urn:oid:1.3.6.1.4.1.5923.1.1.1.1", VStr "eduPersonAffiliation");
    ("urn:oid:0.9.2342.19200300.100.1.3", VStr "mail");
    ("urn:oid:2.5.4.4", VStr "sn");
    ("urn:oid:2.5.4.42", VStr "givenName");
    ("urn:oid:2.16.840.1.113730.3.1.241", VStr "displayName") ].

(** [ATTRIBUTE_MAPPINGS[oid] || oid] *)
Definition getFriendlyName (oid : string) : value :=
  js_or (get ATTRIBUTE_MAPPINGS oid) (VStr oid).

(** The reverse mapping built by [mapAttributes] on every call:
    [friendlyToOid[friendly] = oid] for the entries in order. *)
Definition friendlyToOid : obj :=
  fold_left (fun acc kv => assign acc (to_key (snd kv)) (VStr (fst kv)))
            (entries ATTRIBUTE_MAPPINGS) [].

(** One turn of [requestedAttributes.forEach] in [mapAttributes]. *)
Definition pick (samlResponse : obj) (mappedUser : obj)
    (friendlyName : string) : obj :=
  let oid := get friendlyToOid friendlyName in
  if truthy (js_and oid (get samlResponse (to_key oid))) then
    assign mappedUser friendlyName (get samlResponse (to_key oid))
  else if truthy (get samlResponse friendlyName) then
    assign mappedUser friendlyName (get samlResponse friendlyName)
  else mappedUser.

(** [mapAttributes(samlResponse, requestedAttributes)].  [None] stands for
    an argument that is [undefined] or [null]; [requestedAttributes] is an
    array of strings. *)
Definition mapAttributes (samlResponse : option obj)
    (requestedAttributes : option (list string)) : obj :=
  match samlResponse with
  | None => []
  | Some raw =>
      let all :=
        fold_left
          (fun mappedUser kv =>
             assign mappedUser (to_key (getFriendlyName (fst kv))) (snd kv))
          (entries raw) [] in
      match requestedAttributes with
      | None => all
      | Some requested =>
          if (length requested =? 0)%nat then all
          else fold_left (pick raw) requested []
      end
  end.

End Attributes.

(** ** [index.js] *)

Module Strategy.
Import JS Attributes.

(** *** Effects

    What the code does to the outside world is recorded as a trace, in the
    order in which it happens. *)
Inductive event : Type :=
| ReadFile (path : string)              (* fs.readFileSync(path, 'utf8') *)
| HttpGet (url : value)                 (* protocol.get(metadataUrl, ...) *)
| ConsoleError (args : list value)      (* console.error(...) *)
| SessionLogout                         (* req.logout(callback) *)
| Redirect (url : value).               (* res.redirect(url) *)

(** A computation: the trace it leaves and its completion. *)
Definition M (A : Type) : Type := (list event * result A)%type.

Definition ret {A} (a : A) : M A := ([], Ok a).
Definition throw {A} (e : error) : M A := ([], Throw e).
Definition emit (ev : event) : M unit := ([ev], Ok tt).
Definition bind {A B} (m : M A) (k : A -> M B) : M B :=
  match m with
  | (t, Ok a) => let '(t', r) := k a in (t ++ t', r)
  | (t, Throw e) => (t, Throw e)
  end.

Notation "x <- m ;; k" := (bind m (fun x => k))
  (at level 100, m at next level, right associativity).
Notation "m ;;; k" := (bind m (fun _ => k))
  (at level 100, right associativity).

(** [a || b] where [b] may throw and is evaluated only if needed. *)
Definition or_else (a : value) (b : M value) : M value :=
  if truthy a then ret a else b.

Definition trace {A} (m : M A) : list event := fst m.
Definition outcome {A} (m : M A) : result A := snd m.

Definition is_HttpGet (ev : event) : bool :=
  match ev with HttpGet _ => true | _ => false end.

(** No network request is started. *)
Definition no_request {A} (m : M A) : Prop :=
  existsb is_HttpGet (trace m) = false.

(** *** Strings *)

Definition upper_char (c : ascii) : ascii :=
  let n := nat_of_ascii c in
  if ((97 <=? n) && (n <=? 122))%nat then ascii_of_nat (n - 32) else c.

(** [s.toUpperCase()] for a string [s] of ASCII characters: the letters
    a-z are replaced, every other character is kept.  On a string with other
    characters JavaScript also maps letters outside ASCII (U+0131 to I,
    U+017F to S, ...), which this function does not; the general properties
    that go through it are stated for ASCII environment names. *)
Fixpoint toUpperCase (s : string) : string :=
  match s with
  | EmptyString => EmptyString
  | String c s' => String (upper_char c) (toUpperCase s')
  end.

(** [v !== false] *)
Definition not_false (v : value) : value :=
  match v with
  | VBool false => VBool false
  | _ => VBool true
  end.

(** *** The IdP table *)

Definition UBC_CONFIG : obj :=
  [ ("LOCAL", VObj
       [ ("entryPoint",
          VStr "http://localhost:8080/simplesaml/saml2/idp/SSOService.php");
         ("logoutUrl",
          VStr "http://localhost:8080/simplesaml/saml2/idp/SingleLogoutService.php");
         ("metadataUrl",
          VStr "http://localhost:8080/simplesaml/saml2/idp/metadata.php") ]);
    ("STAGING", VObj
       [ ("entryPoint",
          VStr "https://authentication.stg.id.ubc.ca/idp/profile/SAML2/Redirect/SSO");
         ("logoutUrl",
          VStr "https://authentication.stg.id.ubc.ca/idp/profile/Logout");
         ("metadataUrl",
          VStr "https://authentication.stg.id.ubc.ca/idp/shibboleth") ]);
    ("PRODUCTION", VObj
       [ ("entryPoint",
          VStr "https://authentication.ubc.ca/idp/profile/SAML2/Redirect/SSO");
         ("logoutUrl",
          VStr "https://authentication.ubc.ca/idp/profile/Logout");
         ("metadataUrl",
          VStr "https://authentication.ubc.ca/idp/shibboleth") ]) ].

(** *** Certificate extraction

    The regular expression of [extractCertFromMetadata],
    [/<ds:X509Certificate[^>]*>([A-Za-z0-9+/=]+)<\/ds:X509Certificate>/],
    as a sequence of atoms, and a backtracking matcher for such
    sequences. *)
Inductive atom : Type :=
| Lit (s : string)                      (* the characters of [s] *)
| Star (cls : ascii -> bool)            (* [cls]*, greedy *)
| GroupPlus (cls : ascii -> bool).      (* ([cls]+), greedy, captured *)

Fixpoint strip_prefix (p s : string) : option string :=
  match p, s with
  | EmptyString, _ => Some s
  | String a p', String b s' =>
      if Ascii.eqb a b then strip_prefix p' s' else None
  | String _ _, EmptyString => None
  end.

(** [cls]* followed by the rest of the expression [k]: the longest run
    first, then shorter ones. *)
Fixpoint star (cls : ascii -> bool) (k : string -> option string)
    (s : string) : option string :=
  match s with
  | String c s' =>
      if cls c then
        match star cls k s' with
        | Some r => Some r
        | None => k s
        end
      else k s
  | EmptyString => k s
  end.

(** ([cls]+) followed by the rest of the expression [k], which receives the
    text of the group: at least one character, the longest run first. *)
Fixpoint plus (cls : ascii -> bool) (k : string -> string -> option string)
    (taken s : string) : option string :=
  match s with
  | String c s' =>
      if cls c then
        let taken' := taken +:+ String c EmptyString in
        match plus cls k taken' s' with
        | Some r => Some r
        | None => k taken' s'
        end
      else None
  | EmptyString => None
  end.

(** Match the atoms at the start of the input; the result is the text of
    group 1 ([g] until the group has matched). *)
Fixpoint match_here (p : list atom) (g : string) {struct p}
    : string -> option string :=
  match p with
  | [] => fun _ => Some g
  | Lit l :: p' =>
      fun s =>
        match strip_prefix l s with
        | Some s' => match_here p' g s'
        | None => None
        end
  | Star cls :: p' => star cls (match_here p' g)
  | GroupPlus cls :: p' => plus cls (match_here p') EmptyString
  end.

(** [s.match(re)] for a regular expression without flags: the leftmost
    start at which the atoms match. *)
Fixpoint regex_match (p : list atom) (s : string) : option string :=
  match match_here p EmptyString s with
  | Some g => Some g
  | None =>
      match s with
      | String _ s' => regex_match p s'
      | EmptyString => None
      end
  end.

Definition in_range (lo hi : nat) (c : ascii) : bool :=
  let n := nat_of_ascii c in ((lo <=? n) && (n <=? hi))%nat.

(** [[A-Za-z0-9+/=]] *)
Definition is_base64_char (c : ascii) : bool :=
  in_range 65 90 c || in_range 97 122 c || in_range 48 57 c
  || Ascii.eqb c "+" || Ascii.eqb c "/" || Ascii.eqb c "=".

(** [[^>]] *)
Definition not_gt (c : ascii) : bool := negb (Ascii.eqb c ">").

Definition cert_regex : list atom :=
  [ Lit "<ds:X509Certificate"; Star not_gt; Lit ">";
    GroupPlus is_base64_char; Lit "</ds:X509Certificate>" ].

Definition extractCertFromMetadata (metadataXml : string) : result string :=
  match regex_match cert_regex metadataXml with
  | None => Throw (Error "No X509Certificate found in IdP metadata")
  | Some g =>
      if String.eqb g "" then
        Throw (Error "No X509Certificate found in IdP metadata")
      else Ok g
  end.

(** How the request of [fetchIdPCertificate] ends: a transport error, or
    the accumulated response body. *)
Inductive net_outcome : Type :=
| NetError (message : string)
| NetBody (data : string).

(** The promise of [fetchIdPCertificate(metadataUrl)] once the request has
    ended: resolved with the certificate or rejected. *)
Definition fetchIdPCertificate (o : net_outcome) : result string :=
  match o with
  | NetError m => Throw (Error m)
  | NetBody data => extractCertFromMetadata data
  end.

(** *** The options of the constructor and of the SAML engine *)

(** The [options] argument.  A field that is not set is [VUndefined]
    ([None] for the typed fields). *)
Module Opt.
Record t : Type := mk {
  entryPoint : value;
  logoutUrl : value;
  issuer : value;
  callbackUrl : value;
  privateKeyPath : option string;
  signatureAlgorithm : value;
  digestAlgorithm : value;
  validateInResponseTo : value;
  acceptedClockSkewMs : value;
  cert : value;
  authnRequestBinding : value;
  identifierFormat : value;
  attributeConfig : option (list string);
  enableSLO : value;
  metadataUrl : value
}.

(** [{}] *)
Definition empty : t :=
  mk VUndefined VUndefined VUndefined VUndefined None VUndefined VUndefined
     VUndefined VUndefined VUndefined VUndefined VUndefined None VUndefined
     VUndefined.
End Opt.

(** [samlOptions], handed to the parent [SamlStrategy]. *)
Module Saml.
Record t : Type := mk {
  entryPoint : value;
  logoutUrl : value;
  issuer : value;
  callbackUrl : value;
  privateKey : value;
  decryptionPvk : value;
  signatureAlgorithm : value;
  digestAlgorithm : value;
  validateInResponseTo : value;
  acceptedClockSkewMs : value;
  cert : value;
  authnRequestBinding : value;
  identifierFormat : value
}.

Definition with_cert (o : t) (c : value) : t :=
  mk (entryPoint o) (logoutUrl o) (issuer o) (callbackUrl o) (privateKey o)
     (decryptionPvk o) (signatureAlgorithm o) (digestAlgorithm o)
     (validateInResponseTo o) (acceptedClockSkewMs o) c
     (authnRequestBinding o) (identifierFormat o).
End Saml.

(** [ubcOptionsToStore] *)
Module Ubc.
Record t : Type := mk {
  attributeConfig : list string;
  enableSLO : value;
  metadataUrl : value;
  environment : string;
  cert : value
}.
End Ubc.

(** *** The outside world of one process *)
Record World : Type := {
  env : gmap string string;                    (* process.env *)
  cwd : string;                                (* process.cwd() *)
  path_join : string -> string -> string;      (* path.join *)
  readFileSync : string -> string + string;    (* content, or err.message *)
  SamlStrategy : Saml.t -> result value
    (* the constructor of the parent class, external: it throws, or leaves
       the value of its [certs] field *)
}.

(** [process.env[name]] *)
Definition getenv (w : World) (name : string) : value :=
  match env w !! name with
  | Some s => VStr s
  | None => VUndefined
  end.

(** [(process.env.SAML_ENVIRONMENT || 'STAGING').toUpperCase()] *)
Definition environment_name (w : World) : string :=
  toUpperCase
    match env w !! "SAML_ENVIRONMENT" with
    | Some s => if String.eqb s "" then "STAGING" else s
    | None => "STAGING"
    end.

(** [UBC_CONFIG[environment] || UBC_CONFIG.STAGING], the resolution of the
    constructor. *)
Definition resolve_config (environment : string) : value :=
  js_or (get UBC_CONFIG environment) (get UBC_CONFIG "STAGING").

Definition message (e : error) : string :=
  match e with Error m | TypeError m => m end.

Definition lift {A} (r : result A) : M A := ([], r).

(** [path.isAbsolute] (POSIX) *)
Definition isAbsolute (p : string) : bool :=
  match p with
  | String c _ => Ascii.eqb c "/"
  | EmptyString => false
  end.

Definition loadPrivateKey (w : World) (keyPath : string) : M value :=
  if String.eqb keyPath "" then ret VNull
  else
    let absolutePath :=
      if isAbsolute keyPath then keyPath else path_join w (cwd w) keyPath in
    emit (ReadFile absolutePath) ;;;
    match readFileSync w absolutePath with
    | inl content => ret (VStr content)
    | inr msg =>
        throw (Error ("Failed to load private key from " +:+ keyPath
                      +:+ ": " +:+ msg))
    end.

(** [options.privateKeyPath ? loadPrivateKey(options.privateKeyPath) : null] *)
Definition load_key_option (w : World) (options : Opt.t) : M value :=
  match Opt.privateKeyPath options with
  | Some p => if String.eqb p "" then ret VNull else loadPrivateKey w p
  | None => ret VNull
  end.

Definition cert_required : string :=
  "SAML certificate is required. Either provide options.cert directly, "
  +:+ "or set up certificate fetching from IdP metadata.".

Section Callbacks.
(** [D] is the type of the completion function [done] of the SAML engine,
    [R] what a call of the identity callback amounts to. *)
Variables D R : Type.

(** [wrappedVerify], for the stored [attributeConfig] and the
    application's [verify]. *)
Definition wrappedVerify (attributeConfig : list string)
    (verify : obj -> D -> R) (profile : obj) (done : D) : R :=
  let mappedProfile := spread profile in
  let mappedProfile :=
    if (0 <? length attributeConfig)%nat then
      assign mappedProfile "attributes"
        (VObj (mapAttributes (Some profile) (Some attributeConfig)))
    else mappedProfile in
  verify mappedProfile done.

(** A constructed [UBCStrategy]. *)
Record UBCStrategy : Type := {
  ubcOptions : Ubc.t;
  name : string;
  _samlOptions : Saml.t;
  certs : value;                  (* field of the parent class *)
  _verify : obj -> D -> R         (* the callback handed to the parent *)
}.

(** [new UBCStrategy(options, verify)].  [None] is a missing argument.  An
    [HttpGet] in the trace is the request that [_fetchCertificate] starts
    before the constructor returns. *)
Definition construct (w : World) (options : option Opt.t)
    (verify : option (obj -> D -> R)) : M UBCStrategy :=
  match options with
  | None => throw (Error "Options must be provided to UBCStrategy")
  | Some options =>
  match verify with
  | None => throw (Error "Verify callback must be provided to UBCStrategy")
  | Some verify =>
      let environment := environment_name w in
      let ubcConfig := resolve_config environment in
      entryPoint <- or_else (Opt.entryPoint options)
                            (lift (member ubcConfig "entryPoint")) ;;
      logoutUrl <- or_else (Opt.logoutUrl options)
                           (lift (member ubcConfig "logoutUrl")) ;;
      privateKey <- load_key_option w options ;;
      decryptionPvk <- load_key_option w options ;;
      cert <- or_else (Opt.cert options) (throw (Error cert_required)) ;;
      let samlOptions :=
        Saml.mk entryPoint logoutUrl
          (Opt.issuer options) (Opt.callbackUrl options)
          privateKey decryptionPvk
          (js_or (Opt.signatureAlgorithm options) (VStr "sha256"))
          (js_or (Opt.digestAlgorithm options) (VStr "sha256"))
          (not_false (Opt.validateInResponseTo options))
          (js_or (Opt.acceptedClockSkewMs options) (VNum 0))
          cert
          (js_or (Opt.authnRequestBinding options)
             (VStr "urn:oasis:names:tc:SAML:2.0:bindings:HTTP-Redirect"))
          (js_or (Opt.identifierFormat options) VNull) in
      metadataUrl <- or_else (Opt.metadataUrl options)
                             (lift (member ubcConfig "metadataUrl")) ;;
      let ubcOptionsToStore :=
        Ubc.mk (match Opt.attributeConfig options with
                | Some l => l
                | None => []
                end)
               (not_false (Opt.enableSLO options))
               metadataUrl environment (Opt.cert options) in
      certs <- lift (SamlStrategy w samlOptions) ;;
      let this :=
        {| ubcOptions := ubcOptionsToStore;
           name := "ubcshib";
           _samlOptions := samlOptions;
           certs := certs;
           _verify :=
             wrappedVerify (Ubc.attributeConfig ubcOptionsToStore) verify |} in
      (if negb (truthy (Saml.cert samlOptions))
          && truthy (Ubc.metadataUrl (ubcOptions this))
       then emit (HttpGet (Ubc.metadataUrl (ubcOptions this)))
       else ret tt) ;;;
      ret this
  end
  end.

(** [_fetchCertificate] from the point where the promise of
    [fetchIdPCertificate] is settled: the trace and the strategy
    afterwards.  It has no way to throw. *)
Definition _fetchCertificate (this : UBCStrategy) (o : net_outcome)
    : list event * UBCStrategy :=
  match fetchIdPCertificate o with
  | Ok cert =>
      ([], {| ubcOptions := ubcOptions this;
              name := name this;
              _samlOptions := Saml.with_cert (_samlOptions this) (VStr cert);
              certs := if truthy (certs this) then VArr [VStr cert]
                       else certs this;
              _verify := _verify this |})
  | Throw err =>
      ([ConsoleError [VStr "Failed to fetch IdP certificate:";
                      VStr (message err)]], this)
  end.

End Callbacks.

Arguments wrappedVerify {D R} attributeConfig verify profile done.
Arguments construct {D R} w options verify.
Arguments _fetchCertificate {D R} this o.
Arguments ubcOptions {D R} u.
Arguments name {D R} u.
Arguments _samlOptions {D R} u.
Arguments certs {D R} u.
Arguments _verify {D R} u.

(** *** Middleware *)

(** [logout(returnUrl)(req, res)].  [err] is what [req.logout] passes to
    its callback. *)
Definition logout (w : World) (returnUrl : string) (err : value) : M unit :=
  logoutUrl <-
    or_else (getenv w "SAML_LOGOUT_URL")
            (lift (member (get UBC_CONFIG (environment_name w)) "logoutUrl")) ;;
  emit SessionLogout ;;;
  (if truthy err then emit (ConsoleError [VStr "Logout error:"; err])
   else ret tt) ;;;
  let finalUrl := logoutUrl in
  emit (Redirect finalUrl).

End Strategy.

(** ** Notions used to state the properties *)

Module Notions.
Import JS Attributes Strategy.

(** The friendly name of a wire identifier in the words of the
    specification: the dictionary entry when there is one, the key itself
    otherwise. *)
Definition translate (k : string) : string :=
  match own ATTRIBUTE_MAPPINGS k with
  | Some (VStr friendly) => friendly
  | _ => k
  end.

(** The first lookup of [mapAttributes] for a requested name:
    [oid && samlResponse[oid]] with [oid = friendlyToOid[name]]. *)
Definition wire_lookup (raw : obj) (name : string) : value :=
  let oid := get friendlyToOid name in
  js_and oid (get raw (to_key oid)).

(** The value that [mapAttributes] binds to a requested name, if any. *)
Definition selected (raw : obj) (name : string) : option value :=
  if truthy (wire_lookup raw name) then Some (wire_lookup raw name)
  else if truthy (get raw name) then Some (get raw name)
  else None.

(** An entry with its key translated. *)
Definition translated (kv : string * value) : string * value :=
  (translate (fst kv), snd kv).

Definition mem (k : string) (l : list string) : bool :=
  existsb (String.eqb k) l.

(** The binding of the last entry of [l] whose key translates to [key]. *)
Fixpoint last_translated (l : list (string * value)) (key : string)
    : option value :=
  match l with
  | [] => None
  | (k, v) :: l' =>
      match last_translated l' key with
      | Some v' => Some v'
      | None => if String.eqb (translate k) key then Some v else None
      end
  end.

Definition has_lower (s : string) : bool :=
  existsb (in_range 97 122) (list_ascii_of_string s).

Definition all_base64 (s : string) : bool :=
  forallb is_base64_char (list_ascii_of_string s).

(** [s.includes(needle)] *)
Fixpoint contains (needle s : string) : bool :=
  match strip_prefix needle s with
  | Some _ => true
  | None =>
      match s with
      | String _ s' => contains needle s'
      | EmptyString => false
      end
  end.

(** The next character, if any, is outside the class. *)
Definition stops (cls : ascii -> bool) (s : string) : bool :=
  match s with
  | String c _ => negb (cls c)
  | EmptyString => true
  end.

(** A line feed. *)
Definition nl : string := String (ascii_of_nat 10) EmptyString.

Definition posix_join (a b : string) : string := a +:+ "/" +:+ b.

(** A process with environment [e], no readable key file, and a SAML
    engine whose constructor accepts what it is given. *)
Definition world (e : gmap string string) : World :=
  {| env := e;
     cwd := "/srv/app";
     path_join := posix_join;
     readFileSync := fun _ => inr "ENOENT: no such file or directory";
     SamlStrategy := fun _ => Ok VUndefined |}.

Definition mace_puid : string := "urn:mace:dir:attribute-def:ubcEduCwlPuid".
Definition oid_puid : string := "urn:oid:1.3.6.1.4.1.60.6.1.6".
Definition oid_mail : string := "urn:oid:0.9.2342.19200300.100.1.3".
Definition oid_affiliation : string := "urn:oid:1.3.6.1.4.1.5923.1.1.1.1".

Definition staging_logout : value :=
  VStr "https://authentication.stg.id.ubc.ca/idp/profile/Logout".

(** IdP metadata as Shibboleth publishes it: the certificate text sits on
    lines of its own inside the element. *)
Definition metadata_multiline : string :=
  "<md:EntityDescriptor entityID='https://authentication.stg.id.ubc.ca/idp/shibboleth'>"
  +:+ "<md:IDPSSODescriptor><md:KeyDescriptor use='signing'><ds:KeyInfo><ds:X509Data>"
  +:+ "<ds:X509Certificate>" +:+ nl
  +:+ "MIIDHzCCAgegAwIBAgIUQ0dVbGliMB4XDTI0" +:+ nl
  +:+ "</ds:X509Certificate>"
  +:+ "</ds:X509Data></ds:KeyInfo></md:KeyDescriptor></md:IDPSSODescriptor>"
  +:+ "</md:EntityDescriptor>".

(** The same document with the certificate text directly between the
    tags. *)
Definition metadata_inline : string :=
  "<md:EntityDescriptor entityID='https://authentication.stg.id.ubc.ca/idp/shibboleth'>"
  +:+ "<md:IDPSSODescriptor><md:KeyDescriptor use='signing'><ds:KeyInfo><ds:X509Data>"
  +:+ "<ds:X509Certificate>"
  +:+ "MIIDHzCCAgegAwIBAgIUQ0dVbGliMB4XDTI0"
  +:+ "</ds:X509Certificate>"
  +:+ "</ds:X509Data></ds:KeyInfo></md:KeyDescriptor></md:IDPSSODescriptor>"
  +:+ "</md:EntityDescriptor>".

(** Options with a certificate and a callback URL but no issuer. *)
Definition options_without_issuer : Opt.t :=
  Opt.mk VUndefined VUndefined VUndefined
    (VStr "https://myapp.example.com/auth/ubcshib/callback") None
    VUndefined VUndefined VUndefined VUndefined
    (VStr "MIIDHzCCAgegAwIBAgIUQ0dVbGliMB4XDTI0")
    VUndefined VUndefined None VUndefined VUndefined.

(** Options with a certificate and an issuer but no callback URL. *)
Definition options_without_callbackUrl : Opt.t :=
  Opt.mk VUndefined VUndefined
    (VStr "https://myapp.example.com/shibboleth") VUndefined None
    VUndefined VUndefined VUndefined VUndefined
    (VStr "MIIDHzCCAgegAwIBAgIUQ0dVbGliMB4XDTI0")
    VUndefined VUndefined None VUndefined VUndefined.

(** Options with issuer and callback URL but no certificate. *)
Definition options_without_cert : Opt.t :=
  Opt.mk VUndefined VUndefined
    (VStr "https://myapp.example.com/shibboleth")
    (VStr "https://myapp.example.com/auth/ubcshib/callback") None
    VUndefined VUndefined VUndefined VUndefined
    VUndefined
    VUndefined VUndefined (Some ["mail"]) VUndefined VUndefined.

End Notions.

(** ** [index.js]: the route guards *)

Module Middleware.
Import JS.

(** What a guard does with a request. *)
Inductive reply : Type :=
| Next                          (* next() *)
| RedirectTo (url : value).     (* res.redirect(url) *)

(** [ensureAuthenticated(options)(req, res, next)].  [options] is the
    argument as it is passed ([VUndefined] when it is left out, which the
    default parameter replaces by [{}]); [authenticated] is the answer of
    [req.isAuthenticated()]. *)
Definition ensureAuthenticated (options : value) (authenticated : bool)
    : result reply :=
  let options :=
    match options with
    | VUndefined => VObj []
    | _ => options
    end in
  if authenticated then Ok Next
  else
    match member options "loginUrl" with
    | Ok loginUrl => Ok (RedirectTo (js_or loginUrl (VStr "/auth/ubcshib")))
    | Throw e => Throw e
    end.

Section Request.
(** The requests of the host framework and its session check. *)
Variable Req : Type.
Variable isAuthenticated : Req -> bool.

(** [conditionalAuth(checkFn)(req, res, next)] *)
Definition conditionalAuth (checkFn : Req -> value) (req : Req) : reply :=
  if truthy (checkFn req) then
    if negb (isAuthenticated req) then RedirectTo (VStr "/auth/ubcshib")
    else Next
  else Next.

End Request.

Arguments conditionalAuth {Req} isAuthenticated checkFn req.

End Middleware.

(** ** [example/app.js]: the identity callback of the example application *)

Module ExampleApp.
Import JS.

Inductive output : Type :=
| ConsoleLog (args : list value).       (* console.log(...) *)

(** The [attributeConfig] of the example. *)
Definition attributeConfig : list string :=
  [ "ubcEduCwlPuid"; "mail"; "eduPersonAffiliation"; "givenName"; "sn";
    "displayName" ].

(** The verify callback handed to [new UBCStrategy]: what it prints, and
    the call of [done] it returns, unless a property read throws first. *)
Definition verify {A : Type} (profile : obj) (done : value -> value -> A)
    : list output * result A :=
  let attributes := get profile "attributes" in
  ([ ConsoleLog [ VStr "SAML Profile received:";
                  VObj [ ("nameID", get profile "nameID");
                         ("attributes", attributes) ] ] ],
   match member attributes "ubcEduCwlPuid" with
   | Throw e => Throw e
   | Ok id =>
   match member attributes "mail" with
   | Throw e => Throw e
   | Ok email =>
   match member attributes "displayName" with
   | Throw e => Throw e
   | Ok name =>
   match member attributes "eduPersonAffiliation" with
   | Throw e => Throw e
   | Ok affiliation =>
       let user :=
         [ ("id", id);
           ("nameID", get profile "nameID");
           ("email", email);
           ("name", name);
           ("affiliation", affiliation);
           ("attributes", attributes) ] in
       Ok (done VNull (VObj user))
   end end end end).

End ExampleApp.

(** ** Further notions used to state properties *)

Module Terms.
Import JS Attributes Strategy Notions.

(** The path that [loadPrivateKey] reads for [keyPath]. *)
Definition absolute_path (w : World) (keyPath : string) : string :=
  if isAbsolute keyPath then keyPath else path_join w (cwd w) keyPath.

(** The row of [UBC_CONFIG] that the constructor uses for an upper-cased
    environment name. *)
Definition environment_row (environment : string) : string :=
  if String.eqb environment "LOCAL" then "LOCAL"
  else if String.eqb environment "PRODUCTION" then "PRODUCTION"
  else "STAGING".

(** The environment name is a key of [UBC_CONFIG]. *)
Definition recognized (environment : string) : bool :=
  String.eqb environment "LOCAL" || String.eqb environment "STAGING"
  || String.eqb environment "PRODUCTION".

(** What [logout] prints for the error that [req.logout] reports. *)
Definition logout_log (err : value) : list event :=
  if truthy err then [ConsoleError [VStr "Logout error:"; err]] else [].

(** A process like [world e] whose key file can be read. *)
Definition world_with_key (e : gmap string string) (content : string)
    : World :=
  {| env := e;
     cwd := "/srv/app";
     path_join := posix_join;
     readFileSync := fun _ => inl content;
     SamlStrategy := fun _ => Ok VUndefined |}.

(** Options with certificate, issuer, callback URL and a key path. *)
Definition options_with_key : Opt.t :=
  Opt.mk VUndefined VUndefined
    (VStr "https://myapp.example.com/shibboleth")
    (VStr "https://myapp.example.com/auth/ubcshib/callback")
    (Some "certs/sp-key.pem")
    VUndefined VUndefined VUndefined VUndefined
    (VStr "MIIDHzCCAgegAwIBAgIUQ0dVbGliMB4XDTI0")
    VUndefined VUndefined (Some ["mail"]) (VNum 0) VUndefined.

(** A strategy as the constructor leaves it for [options_with_key]. *)
Definition sample_strategy : UBCStrategy unit value :=
  {| ubcOptions :=
       Ubc.mk ["mail"] (VBool true)
         (VStr "https://authentication.stg.id.ubc.ca/idp/shibboleth")
         "STAGING" (VStr "MIIDHzCCAgegAwIBAgIUQ0dVbGliMB4XDTI0");
     name := "ubcshib";
     _samlOptions :=
       Saml.mk
         (VStr "https://authentication.stg.id.ubc.ca/idp/profile/SAML2/Redirect/SSO")
         (VStr "https://authentication.stg.id.ubc.ca/idp/profile/Logout")
         (VStr "https://myapp.example.com/shibboleth")
         (VStr "https://myapp.example.com/auth/ubcshib/callback")
         VNull VNull (VStr "sha256") (VStr "sha256") (VBool true) (VNum 0)
         (VStr "MIIDHzCCAgegAwIBAgIUQ0dVbGliMB4XDTI0")
         (VStr "urn:oasis:names:tc:SAML:2.0:bindings:HTTP-Redirect") VNull;
     certs := VArr [VStr "MIIDHzCCAgegAwIBAgIUQ0dVbGliMB4XDTI0"];
     _verify := fun p _ => VObj p |}.

(** [samlOptions] as the constructor builds it from the options, the two
    URLs it has settled and the key it has loaded. *)
Definition saml_options (options : Opt.t) (entryPoint logoutUrl key : value)
    : Saml.t :=
  Saml.mk entryPoint logoutUrl
    (Opt.issuer options) (Opt.callbackUrl options)
    key key
    (js_or (Opt.signatureAlgorithm options) (VStr "sha256"))
    (js_or (Opt.digestAlgorithm options) (VStr "sha256"))
    (not_false (Opt.validateInResponseTo options))
    (js_or (Opt.acceptedClockSkewMs options) (VNum 0))
    (Opt.cert options)
    (js_or (Opt.authnRequestBinding options)
       (VStr "urn:oasis:names:tc:SAML:2.0:bindings:HTTP-Redirect"))
    (js_or (Opt.identifierFormat options) VNull).

(** [ubcOptionsToStore] as the constructor builds it. *)
Definition ubc_options (w : World) (options : Opt.t) (metadataUrl : value)
    : Ubc.t :=
  Ubc.mk (match Opt.attributeConfig options with
          | Some l => l
          | None => []
          end)
         (not_false (Opt.enableSLO options))
         metadataUrl (environment_name w) (Opt.cert options).

(** The string holds ASCII characters only. *)
Definition is_ascii (s : string) : bool :=
  forallb (fun c => (nat_of_ascii c <? 128)%nat) (list_ascii_of_string s).

(** [SAML_ENVIRONMENT], when set, is an ASCII string, so that [toUpperCase]
    upper-cases it as JavaScript does. *)
Definition ascii_environment (w : World) : Prop :=
  match env w !! "SAML_ENVIRONMENT" with
  | Some s => is_ascii s = true
  | None => True
  end.

(** The number of occurrences of a character in a string. *)
Fixpoint count_char (c : ascii) (s : string) : nat :=
  match s with
  | EmptyString => 0
  | String x s' => (if Ascii.eqb x c then 1 else 0) + count_char c s'
  end.

(** The profile that the wrapped callback hands to the application. *)
Definition mapped_profile (attributeConfig : option (list string))
    (profile : obj) : obj :=
  match attributeConfig with
  | Some (a :: l) =>
      set profile "attributes"
        (VObj (mapAttributes (Some profile) (Some (a :: l))))
  | _ => profile
  end.

End Terms.

(** ** Objects *)

Module JSFacts.
Import JS.

Lemma own_set_eq (o : obj) (k : string) (v : value) :
  own (set o k v) k = Some v.
Proof.
  induction o as [|[k' v'] o IH]; simpl.
  - now rewrite String.eqb_refl.
  - destruct (String.eqb k' k) eqn:E; simpl; rewrite E; auto.
Qed.

Lemma own_set_ne (o : obj) (k k' : string) (v : value) :
  k <> k' -> own (set o k v) k' = own o k'.
Proof.
  intros Hne. induction o as [|[k0 v0] o IH]; simpl.
  - destruct (String.eqb_spec k k'); [contradiction | reflexivity].
  - destruct (String.eqb_spec k0 k) as [->|Hk]; simpl.
    + destruct (String.eqb_spec k k'); [contradiction | reflexivity].
    + now rewrite IH.
Qed.

Lemma own_set (o : obj) (k k' : string) (v : value) :
  own (set o k v) k' = if String.eqb k k' then Some v else own o k'.
Proof.
  destruct (String.eqb_spec k k') as [->|Hne].
  - apply own_set_eq.
  - now apply own_set_ne.
Qed.

Lemma own_None_keys (o : obj) (k : string) :
  own o k = None <-> ~ In k (keys o).
Proof.
  induction o as [|[k' v'] o IH]; simpl.
  - tauto.
  - destruct (String.eqb_spec k' k) as [->|Hne].
    + split; [discriminate | tauto].
    + rewrite IH. tauto.
Qed.

Lemma own_In (o : obj) (k : string) (v : value) :
  own o k = Some v -> In (k, v) o.
Proof.
  induction o as [|[k' v'] o IH]; simpl; [discriminate|].
  destruct (String.eqb_spec k' k) as [->|Hne].
  - intros [= ->]. now left.
  - intros H. right. auto.
Qed.

Lemma In_own (o : obj) (k : string) (v : value) :
  wf_obj o -> In (k, v) o -> own o k = Some v.
Proof.
  unfold wf_obj, keys.
  induction o as [|[k' v'] o IH]; simpl; [tauto|].
  intros Hnd [[= -> ->]|Hin].
  - now rewrite String.eqb_refl.
  - apply NoDup_cons in Hnd as [Hk Hnd].
    destruct (String.eqb_spec k' k) as [->|Hne].
    + exfalso. apply Hk. apply list_elem_of_In.
      change k with (fst (k, v)). now apply in_map.
    + auto.
Qed.

(** A write under a fresh key appends. *)
Lemma set_fresh (o : obj) (k : string) (v : value) :
  ~ In k (keys o) -> set o k v = o ++ [(k, v)].
Proof.
  induction o as [|[k' v'] o IH]; simpl; [reflexivity|].
  intros Hn. destruct (String.eqb_spec k' k) as [->|Hne].
  - tauto.
  - rewrite IH; [reflexivity | tauto].
Qed.

Lemma assign_set (o : obj) (k : string) (v : value) :
  k <> "__proto__" -> assign o k v = set o k v.
Proof.
  intros Hne. unfold assign.
  destruct (String.eqb_spec k "__proto__"); [contradiction | reflexivity].
Qed.

Lemma own_assign_ne (o : obj) (k k' : string) (v : value) :
  k <> k' -> own (assign o k v) k' = own o k'.
Proof.
  intros Hne. unfold assign.
  destruct (String.eqb k "__proto__"); [destruct (own o k)|];
    auto using own_set_ne.
Qed.

Lemma own_assign_proto (o : obj) (v : value) :
  own o "__proto__" = None -> assign o "__proto__" v = o.
Proof. intros H. unfold assign. simpl. now rewrite H. Qed.

Lemma spread_acc (o acc : obj) :
  NoDup (keys acc ++ keys o) ->
  fold_left (fun a kv => set a (fst kv) (snd kv)) o acc = acc ++ o.
Proof.
  revert acc. induction o as [|[k v] o IH]; intros acc Hnd; simpl.
  - now rewrite app_nil_r.
  - assert (Hk : ~ In k (keys acc)).
    { apply NoDup_app in Hnd as (_ & Hd & _).
      intros Hin. apply (Hd k); [now apply list_elem_of_In|].
      apply list_elem_of_In. now left. }
    rewrite set_fresh by exact Hk.
    rewrite IH.
    + now rewrite <- app_assoc.
    + unfold keys in *. rewrite map_app, <- app_assoc. exact Hnd.
Qed.

(** [{...o}] is a copy of [o]. *)
Lemma spread_wf (o : obj) : wf_obj o -> spread o = o.
Proof.
  intros Hwf. unfold spread, entries.
  now rewrite spread_acc.
Qed.

End JSFacts.

(** ** The attribute mapper *)

Module AttributesFacts.
Import JS Attributes Notions JSFacts.

(** The reverse mapping keeps, for each friendly name, the wire identifier
    registered last. *)
Lemma friendlyToOid_value :
  friendlyToOid =
  [ ("ubcEduCwlPuid", VStr "urn:oid:1.3.6.1.4.1.60.6.1.6");
    ("eduPersonAffiliation", VStr "urn:oid:1.3.6.1.4.1.5923.1.1.1.1");
    ("mail", VStr "urn:oid:0.9.2342.19200300.100.1.3");
    ("sn", VStr "urn:oid:2.5.4.4");
    ("givenName", VStr "urn:oid:2.5.4.42");
    ("displayName", VStr "urn:oid:2.16.840.1.113730.3.1.241") ].
Proof. reflexivity. Qed.

Lemma mem_In (k : string) (l : list string) : mem k l = true <-> In k l.
Proof.
  unfold mem. rewrite existsb_exists. split.
  - intros (x & Hin & Heq). apply String.eqb_eq in Heq. now subst.
  - intros Hin. exists k. split; [exact Hin | apply String.eqb_refl].
Qed.

Lemma inherited_not_prototype (k : string) :
  is_prototype_name k = false -> inherited k = VUndefined.
Proof. intros H. unfold inherited. now rewrite H. Qed.

(** One turn of the loop, seen through the binding it selects. *)
Lemma pick_selected (raw acc : obj) (name : string) :
  pick raw acc name =
  match selected raw name with
  | Some v => assign acc name v
  | None => acc
  end.
Proof.
  unfold pick, selected, wire_lookup, js_and.
  destruct (truthy (get friendlyToOid name)) eqn:Ho.
  - destruct (truthy (get raw (to_key (get friendlyToOid name))));
      [reflexivity|].
    destruct (truthy (get raw name)); reflexivity.
  - rewrite Ho. destruct (truthy (get raw name)); reflexivity.
Qed.

Lemma own_pick_ne (raw acc : obj) (a name : string) :
  a <> name -> own (pick raw acc a) name = own acc name.
Proof.
  intros Hne. rewrite pick_selected.
  destruct (selected raw a); [now apply own_assign_ne | reflexivity].
Qed.

(** The own properties of the result of the filtering loop. *)
Lemma own_requested (raw : obj) (requested : list string) (acc : obj)
    (name : string) :
  name <> "__proto__" ->
  own (fold_left (pick raw) requested acc) name =
  if mem name requested then
    match selected raw name with
    | Some v => Some v
    | None => own acc name
    end
  else own acc name.
Proof.
  intros Hproto. revert acc.
  induction requested as [|a requested IH]; intros acc; simpl; [reflexivity|].
  rewrite IH. destruct (String.eqb_spec name a) as [<-|Hne]; simpl.
  - rewrite pick_selected.
    destruct (selected raw name) as [v|] eqn:Hs.
    + rewrite assign_set by exact Hproto. rewrite own_set_eq.
      now destruct (mem name requested).
    + now destruct (mem name requested).
  - rewrite own_pick_ne by congruence. reflexivity.
Qed.

(** The loop never creates an own ["__proto__"]. *)
Lemma own_requested_proto (raw : obj) (requested : list string) (acc : obj) :
  own acc "__proto__" = None ->
  own (fold_left (pick raw) requested acc) "__proto__" = None.
Proof.
  revert acc. induction requested as [|a requested IH]; intros acc Hacc;
    simpl; [exact Hacc|].
  apply IH. rewrite pick_selected.
  destruct (selected raw a) as [v|]; [|exact Hacc].
  destruct (String.eqb_spec a "__proto__") as [->|Hne].
  - now rewrite own_assign_proto.
  - now rewrite own_assign_ne.
Qed.

Lemma mapAttributes_requested (raw : obj) (requested : list string) :
  requested <> [] ->
  mapAttributes (Some raw) (Some requested) =
  fold_left (pick raw) requested [].
Proof.
  intros Hne. unfold mapAttributes.
  destruct requested; [contradiction | reflexivity].
Qed.

(** What a requested name is bound to in the result. *)
Lemma own_mapAttributes_requested (raw : obj) (requested : list string)
    (name : string) :
  In name requested ->
  own (mapAttributes (Some raw) (Some requested)) name =
  if String.eqb name "__proto__" then None else selected raw name.
Proof.
  intros Hin.
  rewrite mapAttributes_requested by (intros ->; contradiction).
  destruct (String.eqb_spec name "__proto__") as [->|Hne].
  - now apply own_requested_proto.
  - rewrite own_requested by exact Hne.
    apply mem_In in Hin. rewrite Hin.
    now destruct (selected raw name).
Qed.

End AttributesFacts.

Module Mapper.
Import JS Attributes Notions JSFacts AttributesFacts.

(** Case analysis on a name against the keys of a literal object. *)
Ltac split_keys k :=
  repeat match goal with
         | |- context [String.eqb ?a k] =>
             destruct (String.eqb_spec a k); [subst k|]
         end.

Lemma not_prototype_proto (k : string) :
  is_prototype_name k = false -> k <> "__proto__".
Proof. intros H ->. discriminate H. Qed.

(** On a name that [Object.prototype] does not define, [getFriendlyName]
    is the translation of the specification. *)
Lemma getFriendlyName_translate (k : string) :
  is_prototype_name k = false -> to_key (getFriendlyName k) = translate k.
Proof.
  intros Hk. unfold getFriendlyName, translate, get, ATTRIBUTE_MAPPINGS.
  cbn [own]. split_keys k; try reflexivity.
  now rewrite inherited_not_prototype.
Qed.

Lemma translate_not_proto (k : string) :
  is_prototype_name k = false -> translate k <> "__proto__".
Proof.
  intros Hk. unfold translate, ATTRIBUTE_MAPPINGS. cbn [own].
  split_keys k; try discriminate.
  now apply not_prototype_proto.
Qed.

(** What the reverse mapping holds for a name that [Object.prototype] does
    not define: nothing, or a wire identifier. *)
Lemma friendlyToOid_cases (name : string) :
  is_prototype_name name = false ->
  get friendlyToOid name = VUndefined
  \/ exists wire, get friendlyToOid name = VStr wire
                  /\ is_prototype_name wire = false.
Proof.
  intros Hp. unfold get. rewrite friendlyToOid_value. cbn [own].
  split_keys name; try (right; eexists; split; reflexivity).
  left. now apply inherited_not_prototype.
Qed.

Lemma passthrough_step (acc : obj) (k : string) (v : value) :
  is_prototype_name k = false ->
  assign acc (to_key (getFriendlyName k)) v = set acc (translate k) v.
Proof.
  intros Hk. rewrite getFriendlyName_translate by exact Hk.
  apply assign_set. now apply translate_not_proto.
Qed.

Lemma keys_translated (l : list (string * value)) :
  keys (map translated l) = map translate (keys l).
Proof. unfold keys. rewrite !map_map. reflexivity. Qed.

(** Full pass-through when the translated keys are pairwise distinct: each
    write appends. *)
Lemma passthrough_distinct (l : list (string * value)) (acc : obj) :
  Forall (fun k => is_prototype_name k = false) (keys l) ->
  NoDup (keys acc ++ map translate (keys l)) ->
  fold_left
    (fun mappedUser kv =>
       assign mappedUser (to_key (getFriendlyName (fst kv))) (snd kv))
    l acc
  = acc ++ map translated l.
Proof.
  revert acc. induction l as [|[k v] l IH]; intros acc Hp Hnd; simpl.
  - now rewrite app_nil_r.
  - simpl in Hp. apply Forall_cons in Hp as [Hk Hp].
    rewrite passthrough_step by exact Hk.
    assert (Hfresh : ~ In (translate k) (keys acc)).
    { apply NoDup_app in Hnd as (_ & Hd & _).
      intros Hin. apply (Hd (translate k)); [now apply list_elem_of_In|].
      apply list_elem_of_In. now left. }
    rewrite set_fresh by exact Hfresh.
    rewrite IH.
    + now rewrite <- app_assoc.
    + exact Hp.
    + unfold keys in *. rewrite map_app, <- app_assoc. exact Hnd.
Qed.

(** Full pass-through in general: a translated key is bound to the value of
    the last entry that translates to it. *)
Lemma passthrough_last (l : list (string * value)) (acc : obj)
    (key : string) :
  Forall (fun k => is_prototype_name k = false) (keys l) ->
  own (fold_left
         (fun mappedUser kv =>
            assign mappedUser (to_key (getFriendlyName (fst kv))) (snd kv))
         l acc) key
  = match last_translated l key with
    | Some v => Some v
    | None => own acc key
    end.
Proof.
  revert acc. induction l as [|[k v] l IH]; intros acc Hp; simpl;
    [reflexivity|].
  simpl in Hp. apply Forall_cons in Hp as [Hk Hp].
  rewrite IH by exact Hp. rewrite passthrough_step by exact Hk.
  destruct (last_translated l key); [reflexivity|].
  rewrite own_set. now destruct (String.eqb (translate k) key).
Qed.

Lemma last_translated_In (l : list (string * value)) (k : string) :
  In k (keys l) -> last_translated l (translate k) <> None.
Proof.
  induction l as [|[k' v'] l IH]; simpl; [tauto|].
  intros [->|Hin].
  - destruct (last_translated l (translate k)); [discriminate|].
    now rewrite String.eqb_refl.
  - destruct (last_translated l (translate k)) eqn:E; [discriminate|].
    now apply IH in Hin.
Qed.

(** No translated key is missing from a full pass-through, whatever the
    input. *)
Lemma passthrough_keeps_translated_keys (raw : obj) (k : string) :
  Forall (fun k => is_prototype_name k = false) (keys raw) ->
  In k (keys raw) ->
  own (mapAttributes (Some raw) (Some [])) (translate k) <> None.
Proof.
  intros Hp Hin. unfold mapAttributes, entries. simpl.
  rewrite passthrough_last by exact Hp.
  pose proof (last_translated_In raw k Hin) as H.
  destruct (last_translated raw (translate k)); [discriminate | contradiction].
Qed.

End Mapper.

Module MapperProperties.
Import JS Attributes Notions JSFacts AttributesFacts Mapper.

(** The end-to-end scenario of the specification. *)
Example mapAttributes_end_to_end :
  mapAttributes
    (Some [ (oid_mail, VStr "a@ubc.ca");
            (oid_affiliation, VArr [VStr "student"; VStr "member"]) ])
    (Some ["mail"; "eduPersonAffiliation"])
  = [ ("mail", VStr "a@ubc.ca");
      ("eduPersonAffiliation", VArr [VStr "student"; VStr "member"]) ].
Proof. reflexivity. Qed.

(** C3, as amended.  For every dictionary entry [(wire, friendly)] whose
    wire identifier is the one the reverse lookup keeps for [friendly] (the
    one registered last) and every truthy value [v],
    [mapAttributes({wire: v}, [friendly])] is exactly [{friendly: v}]. *)
Theorem mapAttributes_recovers_selected_entry
    (wire friendly : string) (v : value) :
  In (wire, VStr friendly) ATTRIBUTE_MAPPINGS ->
  get friendlyToOid friendly = VStr wire ->
  truthy v = true ->
  mapAttributes (Some [(wire, v)]) (Some [friendly]) = [(friendly, v)].
Proof.
  intros Hin Hsel Hv.
  unfold mapAttributes. cbn [length Nat.eqb fold_left].
  rewrite pick_selected. unfold selected, wire_lookup. rewrite Hsel.
  unfold ATTRIBUTE_MAPPINGS in Hin. simpl in Hin.
  repeat (destruct Hin as [Hin|Hin]; [injection Hin as <- <-|]);
    try contradiction;
    try (vm_compute in Hsel; discriminate Hsel);
    unfold js_and, get; cbn; rewrite Hv; reflexivity.
Qed.

Lemma mapAttributes_recovers_selected_entry_witness :
  mapAttributes (Some [(oid_mail, VStr "a@ubc.ca")]) (Some ["mail"])
  = [("mail", VStr "a@ubc.ca")].
Proof.
  apply (mapAttributes_recovers_selected_entry oid_mail "mail"
           (VStr "a@ubc.ca")).
  - vm_compute. tauto.
  - reflexivity.
  - reflexivity.
Defined.

(** C3 as stated fails twice: on the MACE-format entry of [ubcEduCwlPuid],
    which the reverse lookup does not keep, and on a falsy value. *)
Lemma mapAttributes_loses_mace_entry_and_falsy_value :
  (In (mace_puid, VStr "ubcEduCwlPuid") ATTRIBUTE_MAPPINGS
   /\ mapAttributes (Some [(mace_puid, VStr "12345678")])
        (Some ["ubcEduCwlPuid"]) = []
   /\ mapAttributes (Some [(mace_puid, VStr "12345678")])
        (Some ["ubcEduCwlPuid"]) <> [("ubcEduCwlPuid", VStr "12345678")])
  /\ (In (oid_mail, VStr "mail") ATTRIBUTE_MAPPINGS
      /\ mapAttributes (Some [(oid_mail, VStr "")]) (Some ["mail"]) = []
      /\ mapAttributes (Some [(oid_mail, VStr "")]) (Some ["mail"])
         <> [("mail", VStr "")]).
Proof.
  repeat split; try reflexivity; try discriminate; vm_compute; tauto.
Qed.

(** C7, as amended.  When no key of [raw] is a property name of
    [Object.prototype] and the translated keys are pairwise distinct,
    [mapAttributes(raw, [])] is [raw] entry by entry, each key replaced by
    its friendly name when the dictionary has one and kept otherwise. *)
Theorem mapAttributes_passthrough (raw : obj) :
  Forall (fun k => is_prototype_name k = false) (keys raw) ->
  NoDup (map translate (keys raw)) ->
  mapAttributes (Some raw) (Some []) = map translated raw.
Proof.
  intros Hp Hnd. unfold mapAttributes, entries. simpl.
  now rewrite passthrough_distinct.
Qed.

Lemma mapAttributes_passthrough_witness :
  mapAttributes
    (Some [ (oid_mail, VStr "a@ubc.ca");
            (oid_affiliation, VArr [VStr "student"; VStr "member"]);
            ("nameID", VStr "abc") ])
    (Some [])
  = [ ("mail", VStr "a@ubc.ca");
      ("eduPersonAffiliation", VArr [VStr "student"; VStr "member"]);
      ("nameID", VStr "abc") ].
Proof.
  apply (mapAttributes_passthrough
           [ (oid_mail, VStr "a@ubc.ca");
             (oid_affiliation, VArr [VStr "student"; VStr "member"]);
             ("nameID", VStr "abc") ]).
  - repeat constructor.
  - vm_compute. repeat constructor; rewrite list_elem_of_In; simpl;
      intuition discriminate.
Defined.

(** C7 as stated fails when two keys of [raw] translate to one friendly
    name: the entry enumerated first is lost.  It also fails on a key that
    [Object.prototype] defines: [getFriendlyName] finds the inherited
    function, and the entry lands under the text of that function. *)
Lemma mapAttributes_passthrough_drops_entry :
  (mapAttributes (Some [(mace_puid, VStr "a"); (oid_puid, VStr "b")])
     (Some [])
   = [("ubcEduCwlPuid", VStr "b")]
   /\ translate mace_puid = "ubcEduCwlPuid"
   /\ own (mapAttributes
             (Some [(mace_puid, VStr "a"); (oid_puid, VStr "b")])
             (Some [])) (translate mace_puid) <> Some (VStr "a"))
  /\ (mapAttributes (Some [("constructor", VStr "x")]) (Some [])
      = [("function Object() { [native code] }", VStr "x")]
      /\ translate "constructor" = "constructor"
      /\ own (mapAttributes (Some [("constructor", VStr "x")]) (Some []))
            (translate "constructor") = None).
Proof. repeat split; try reflexivity. vm_compute. discriminate. Qed.

(** Where the omission that C8 describes does hold: a requested friendly
    name that is ["__proto__"] or no property name of [Object.prototype], is
    not a key of [raw], and whose wire identifier (the one the reverse lookup
    keeps, if any) is not a key of [raw], is not a key of the result.
    [mapAttributes] has no failing outcome. *)
Lemma mapAttributes_omits_unresolved
    (raw : obj) (requested : list string) (name : string) :
  In name requested ->
  is_prototype_name name = false \/ name = "__proto__" ->
  own raw name = None ->
  (forall wire, get friendlyToOid name = VStr wire -> own raw wire = None) ->
  own (mapAttributes (Some raw) (Some requested)) name = None.
Proof.
  intros Hin Hp Hraw Hwire.
  rewrite own_mapAttributes_requested by exact Hin.
  destruct (String.eqb_spec name "__proto__") as [|Hne]; [reflexivity|].
  destruct Hp as [Hp|Hp]; [|contradiction].
  assert (Hv : get raw name = VUndefined).
  { unfold get. rewrite Hraw. now apply inherited_not_prototype. }
  unfold selected. rewrite Hv. cbn [truthy].
  assert (Hw : truthy (wire_lookup raw name) = false);
    [|now rewrite Hw].
  unfold wire_lookup, js_and.
  destruct (friendlyToOid_cases name Hp) as [Ho|(wire & Ho & Hnp)];
    rewrite Ho; [reflexivity|].
  specialize (Hwire wire Ho).
  cbn [to_key]. unfold get. rewrite Hwire.
  rewrite inherited_not_prototype by exact Hnp.
  destruct (truthy (VStr wire)) eqn:E; [reflexivity | exact E].
Qed.

Lemma mapAttributes_omits_unresolved_witness :
  own (mapAttributes (Some [(oid_mail, VStr "a@ubc.ca")])
         (Some ["mail"; "displayName"; "studentNumber"])) "displayName" = None
  /\ own (mapAttributes (Some [(oid_mail, VStr "a@ubc.ca")])
            (Some ["mail"; "displayName"; "studentNumber"])) "studentNumber"
     = None
  /\ own (mapAttributes (Some []) (Some ["__proto__"])) "__proto__" = None.
Proof.
  split; [|split].
  - apply (mapAttributes_omits_unresolved [(oid_mail, VStr "a@ubc.ca")]
             ["mail"; "displayName"; "studentNumber"] "displayName").
    + simpl. tauto.
    + left. reflexivity.
    + reflexivity.
    + intros wire [= <-]. reflexivity.
  - apply (mapAttributes_omits_unresolved [(oid_mail, VStr "a@ubc.ca")]
             ["mail"; "displayName"; "studentNumber"] "studentNumber").
    + simpl. tauto.
    + left. reflexivity.
    + reflexivity.
    + intros wire [=].
  - apply (mapAttributes_omits_unresolved [] ["__proto__"] "__proto__").
    + simpl. tauto.
    + right. reflexivity.
    + reflexivity.
    + intros wire [=].
Defined.

(** Every property name of [Object.prototype] other than ["__proto__"],
    requested on an empty assertion, is bound to the inherited built-in. *)
Lemma mapAttributes_binds_every_inherited_name :
  Forall (fun name =>
            name = "__proto__"
            \/ mapAttributes (Some []) (Some [name])
               = [(name, VNative name)])
         Object_prototype_names.
Proof.
  unfold Object_prototype_names.
  repeat (apply List.Forall_cons; [(right; reflexivity) || (left; reflexivity)|]).
  apply List.Forall_nil.
Qed.

(** C8: the code breaks the claim.  ["constructor"] is no friendly name of
    the dictionary and no key of the empty assertion, yet
    [mapAttributes({}, ['constructor'])] binds it, to the function that the
    plain property read [samlResponse[friendlyName]] finds on
    [Object.prototype]. *)
Lemma mapAttributes_binds_inherited_name :
  existsb (fun kv => String.eqb (to_key (snd kv)) "constructor")
          ATTRIBUTE_MAPPINGS = false
  /\ own [] "constructor" = None
  /\ mapAttributes (Some []) (Some ["constructor"])
     = [("constructor", VNative "constructor")]
  /\ own (mapAttributes (Some []) (Some ["constructor"])) "constructor"
     <> None.
Proof. repeat split; try reflexivity. vm_compute. discriminate. Qed.

(** C10, as amended.  A requested friendly name is omitted when its wire
    identifier is a key of [raw] bound to a falsy value and the name itself
    is not bound to a truthy value, and also when the name itself is a key of
    [raw] bound to a falsy value and the lookup of its wire identifier
    yields no truthy value: presence is tested on the truth of the value,
    not on the key. *)
Theorem mapAttributes_omits_falsy
    (raw : obj) (requested : list string) (name : string) :
  In name requested ->
  ((exists wire v, get friendlyToOid name = VStr wire
                   /\ own raw wire = Some v /\ truthy v = false)
   /\ truthy (get raw name) = false)
  \/ ((exists v, own raw name = Some v /\ truthy v = false)
      /\ truthy (wire_lookup raw name) = false) ->
  own (mapAttributes (Some raw) (Some requested)) name = None.
Proof.
  intros Hin H.
  rewrite own_mapAttributes_requested by exact Hin.
  destruct (String.eqb name "__proto__"); [reflexivity|].
  unfold selected.
  destruct H as [[(wire & v & Ho & Hw & Hv) Hn]|[(v & Hn & Hv) Hw]].
  - assert (E : truthy (wire_lookup raw name) = false).
    { unfold wire_lookup, js_and. rewrite Ho. cbn [to_key].
      unfold get. rewrite Hw.
      destruct (truthy (VStr wire)) eqn:E; [exact Hv | exact E]. }
    now rewrite E, Hn.
  - rewrite Hw. unfold get. rewrite Hn, Hv. reflexivity.
Qed.

Lemma mapAttributes_omits_falsy_witness :
  own (mapAttributes (Some [(oid_mail, VStr ""); ("sn", VNum 0)])
         (Some ["mail"; "sn"])) "mail" = None
  /\ own (mapAttributes (Some [(oid_mail, VStr ""); ("sn", VNum 0)])
            (Some ["mail"; "sn"])) "sn" = None.
Proof.
  split.
  - apply (mapAttributes_omits_falsy [(oid_mail, VStr ""); ("sn", VNum 0)]
             ["mail"; "sn"] "mail").
    + simpl. tauto.
    + left. split; [|reflexivity].
      exists oid_mail, (VStr ""). repeat split; reflexivity.
  - apply (mapAttributes_omits_falsy [(oid_mail, VStr ""); ("sn", VNum 0)]
             ["mail"; "sn"] "sn").
    + simpl. tauto.
    + right. split; [|reflexivity].
      exists (VNum 0). split; reflexivity.
Defined.

(** C10 as stated fails when one of the two keys is bound to a falsy value
    and the other to a truthy one: with the wire identifier of [mail] bound
    to the empty string, [mail] is still bound through the verbatim key; and
    with the key [mail] bound to the empty string, [mail] is still bound
    through its wire identifier. *)
Lemma mapAttributes_falsy_key_truthy_other :
  get friendlyToOid "mail" = VStr oid_mail
  /\ truthy (VStr "") = false
  /\ (own [(oid_mail, VStr ""); ("mail", VStr "a@ubc.ca")] oid_mail
      = Some (VStr "")
      /\ own (mapAttributes
                (Some [(oid_mail, VStr ""); ("mail", VStr "a@ubc.ca")])
                (Some ["mail"])) "mail" = Some (VStr "a@ubc.ca"))
  /\ (own [(oid_mail, VStr "a@ubc.ca"); ("mail", VStr "")] "mail"
      = Some (VStr "")
      /\ own (mapAttributes
                (Some [(oid_mail, VStr "a@ubc.ca"); ("mail", VStr "")])
                (Some ["mail"])) "mail" = Some (VStr "a@ubc.ca")).
Proof. repeat split; reflexivity. Qed.

End MapperProperties.

(** ** The strategy *)

Module StrategyFacts.
Import JS Attributes Strategy Notions JSFacts.

(** *** The monad *)

Lemma trace_bind {A B} (m : M A) (k : A -> M B) :
  trace (bind m k) =
  match outcome m with
  | Ok a => trace m ++ trace (k a)
  | Throw _ => trace m
  end.
Proof.
  destruct m as [t [a|e]]; simpl; [|reflexivity].
  now destruct (k a).
Qed.

Lemma outcome_bind {A B} (m : M A) (k : A -> M B) :
  outcome (bind m k) =
  match outcome m with
  | Ok a => outcome (k a)
  | Throw e => Throw e
  end.
Proof.
  destruct m as [t [a|e]]; simpl; [|reflexivity].
  now destruct (k a).
Qed.

Lemma bind_ok_inv {A B} (m : M A) (k : A -> M B) (b : B) :
  outcome (bind m k) = Ok b ->
  exists a, outcome m = Ok a /\ outcome (k a) = Ok b.
Proof.
  rewrite outcome_bind. destruct (outcome m) as [a|e]; [|discriminate].
  intros H. now exists a.
Qed.

Lemma no_request_bind {A B} (m : M A) (k : A -> M B) :
  no_request m ->
  (forall a, outcome m = Ok a -> no_request (k a)) ->
  no_request (bind m k).
Proof.
  unfold no_request. intros Hm Hk. rewrite trace_bind.
  destruct (outcome m) as [a|e] eqn:E; [|exact Hm].
  rewrite existsb_app, Hm. now apply Hk.
Qed.

Lemma no_request_or_else (a : value) (b : M value) :
  no_request b -> no_request (or_else a b).
Proof. intros Hb. unfold or_else. now destruct (truthy a). Qed.

Lemma or_else_throw_ok (a v : value) (e : error) :
  outcome (or_else a (throw e)) = Ok v -> v = a /\ truthy a = true.
Proof.
  unfold or_else. destruct (truthy a); [|discriminate].
  now intros [= <-].
Qed.

Lemma no_request_load_key (w : World) (options : Opt.t) :
  no_request (load_key_option w options).
Proof.
  unfold load_key_option, loadPrivateKey.
  destruct (Opt.privateKeyPath options) as [p|]; [|reflexivity].
  destruct (String.eqb p ""); [reflexivity|].
  destruct (readFileSync w _); reflexivity.
Qed.

(** *** Upper case and the names of [Object.prototype] *)

Lemma upper_char_not_lower (c : ascii) :
  in_range 97 122 (upper_char c) = false.
Proof. destruct c as [[] [] [] [] [] [] [] []]; reflexivity. Qed.

Lemma upper_char_idempotent (c : ascii) :
  upper_char (upper_char c) = upper_char c.
Proof. destruct c as [[] [] [] [] [] [] [] []]; reflexivity. Qed.

Lemma toUpperCase_no_lower (s : string) : has_lower (toUpperCase s) = false.
Proof.
  unfold has_lower. induction s as [|c s IH]; simpl; [reflexivity|].
  now rewrite upper_char_not_lower.
Qed.

Lemma toUpperCase_idempotent (s : string) :
  toUpperCase (toUpperCase s) = toUpperCase s.
Proof.
  induction s as [|c s IH]; simpl; [reflexivity|].
  now rewrite upper_char_idempotent, IH.
Qed.

Lemma prototype_name_has_lower (k : string) :
  is_prototype_name k = true -> has_lower k = true.
Proof.
  unfold is_prototype_name, Object_prototype_names. simpl.
  rewrite !orb_true_iff, !String.eqb_eq.
  intuition (subst; try reflexivity; discriminate).
Qed.

(** An upper-cased name is never found on [Object.prototype]. *)
Lemma toUpperCase_not_prototype (s : string) :
  is_prototype_name (toUpperCase s) = false.
Proof.
  destruct (is_prototype_name (toUpperCase s)) eqn:E; [|reflexivity].
  apply prototype_name_has_lower in E.
  now rewrite toUpperCase_no_lower in E.
Qed.

(** *** Environment resolution in the constructor *)

(** The constructor resolves every name: to the entry of the table under
    the upper-cased name, to [STAGING] when there is none. *)
Lemma resolve_config_total (s : string) :
  resolve_config (toUpperCase s) =
  match own UBC_CONFIG (toUpperCase s) with
  | Some profile => profile
  | None => get UBC_CONFIG "STAGING"
  end
  /\ exists o, resolve_config (toUpperCase s) = VObj o.
Proof.
  unfold resolve_config.
  assert (Hg : get UBC_CONFIG (toUpperCase s) =
               match own UBC_CONFIG (toUpperCase s) with
               | Some v => v
               | None => VUndefined
               end).
  { unfold get. destruct (own UBC_CONFIG (toUpperCase s)); [reflexivity|].
    unfold inherited. now rewrite toUpperCase_not_prototype. }
  rewrite Hg.
  destruct (own UBC_CONFIG (toUpperCase s)) as [v|] eqn:E.
  - apply own_In in E. unfold UBC_CONFIG in E. simpl in E.
    destruct E as [E|[E|[E|[]]]]; injection E as _ <-;
      (split; [reflexivity | eexists; reflexivity]).
  - split; [reflexivity | eexists; reflexivity].
Qed.

Lemma resolve_config_member (s k : string) :
  exists v, member (resolve_config (toUpperCase s)) k = Ok v.
Proof.
  destruct (resolve_config_total s) as [_ [o ->]]. simpl. eauto.
Qed.

Example resolve_config_lower_case :
  resolve_config (environment_name (world {[ "SAML_ENVIRONMENT" := "production" ]}))
  = resolve_config "PRODUCTION"
  /\ resolve_config (environment_name (world {[ "SAML_ENVIRONMENT" := "Staging" ]}))
     = get UBC_CONFIG "STAGING"
  /\ resolve_config (environment_name (world ∅)) = get UBC_CONFIG "STAGING".
Proof. repeat split; vm_compute; reflexivity. Qed.

(** The name is compared without regard to case. *)
Lemma resolve_config_case (s : string) :
  resolve_config (toUpperCase (toUpperCase s)) =
  resolve_config (toUpperCase s).
Proof. now rewrite toUpperCase_idempotent. Qed.

End StrategyFacts.

Module StrategyProperties.
Import JS Attributes Strategy Notions JSFacts StrategyFacts.

(** The constructor starts no network request, whatever its arguments:
    the fetch of the certificate sits behind [!samlOptions.cert], and the
    constructor has thrown by then when there is no certificate. *)
Lemma construct_no_request {D R} (w : World) (options : option Opt.t)
    (verify : option (obj -> D -> R)) :
  no_request (construct w options verify).
Proof.
  unfold construct.
  destruct options as [options|]; [|reflexivity].
  destruct verify as [verify|]; [|reflexivity].
  apply no_request_bind; [now apply no_request_or_else|].
  intros entryPoint _.
  apply no_request_bind; [now apply no_request_or_else|].
  intros logoutUrl _.
  apply no_request_bind; [apply no_request_load_key|].
  intros privateKey _.
  apply no_request_bind; [apply no_request_load_key|].
  intros decryptionPvk _.
  apply no_request_bind; [now apply no_request_or_else|].
  intros cert Hcert. apply or_else_throw_ok in Hcert as [-> Ht].
  apply no_request_bind; [now apply no_request_or_else|].
  intros metadataUrl _.
  apply no_request_bind; [reflexivity|].
  intros certs _.
  apply no_request_bind; [|reflexivity].
  cbn [Saml.cert]. now rewrite Ht.
Qed.

(** Without a certificate in the options the constructor does not return. *)
Lemma construct_requires_cert {D R} (w : World) (options : Opt.t)
    (verify : obj -> D -> R) (this : UBCStrategy D R) :
  truthy (Opt.cert options) = false ->
  outcome (construct w (Some options) (Some verify)) <> Ok this.
Proof.
  intros Hc H. unfold construct in H.
  apply bind_ok_inv in H as (entryPoint & _ & H).
  apply bind_ok_inv in H as (logoutUrl & _ & H).
  apply bind_ok_inv in H as (privateKey & _ & H).
  apply bind_ok_inv in H as (decryptionPvk & _ & H).
  apply bind_ok_inv in H as (cert & Hcert & _).
  apply or_else_throw_ok in Hcert as [_ Ht]. congruence.
Qed.

(** [_fetchCertificate] on a failed fetch: the error is logged and the
    strategy is left as it was. *)
Lemma _fetchCertificate_failure {D R} (this : UBCStrategy D R)
    (o : net_outcome) (e : error) :
  fetchIdPCertificate o = Throw e ->
  _fetchCertificate this o =
  ([ConsoleError [VStr "Failed to fetch IdP certificate:";
                  VStr (message e)]], this).
Proof. intros H. unfold _fetchCertificate. now rewrite H. Qed.

(** C1: the code breaks the claim.  With issuer and callback URL but no
    [options.cert], the constructor throws "SAML certificate is required"
    before it reaches the parent constructor and the fetch. *)
Theorem construct_without_cert_throws {D R} (verify : obj -> D -> R) :
  construct (world ∅) (Some options_without_cert) (Some verify)
  = ([], Throw (Error cert_required)).
Proof. reflexivity. Qed.

(** When the options hold a certificate and no key path and the parent
    constructor accepts its arguments, construction succeeds, with issuer
    and callback URL handed to the parent as they were given. *)
Lemma construct_forwards_issuer {D R} (w : World) (options : Opt.t)
    (verify : obj -> D -> R) :
  truthy (Opt.cert options) = true ->
  Opt.privateKeyPath options = None ->
  (forall o, exists c, SamlStrategy w o = Ok c) ->
  exists this,
    construct w (Some options) (Some verify) = ([], Ok this)
    /\ Saml.issuer (_samlOptions this) = Opt.issuer options
    /\ Saml.callbackUrl (_samlOptions this) = Opt.callbackUrl options.
Proof.
  intros Hc Hk Hparent. unfold construct, load_key_option, or_else, lift.
  rewrite Hk, Hc. unfold environment_name.
  match goal with
  | |- context [resolve_config (toUpperCase ?x)] =>
      destruct (resolve_config_total x) as [_ [o ->]]
  end.
  cbn [member].
  destruct (truthy (Opt.entryPoint options));
    destruct (truthy (Opt.logoutUrl options));
    destruct (truthy (Opt.metadataUrl options));
    cbn [bind ret app];
    match goal with
    | |- context [SamlStrategy w ?so] =>
        let E := fresh "E" in
        destruct (Hparent so) as [c E]; rewrite E
    end;
    cbn [bind ret app Saml.cert]; rewrite Hc; cbn;
    eexists; repeat split.
Qed.

(** C4: the code breaks the claim.  Options without an issuer, and options
    without a callback URL, are accepted: the constructor checks neither
    field and hands [undefined] to the parent constructor. *)
Theorem construct_accepts_missing_issuer {D R} (verify : obj -> D -> R) :
  (exists this,
     construct (world ∅) (Some options_without_issuer) (Some verify)
     = ([], Ok this)
     /\ Saml.issuer (_samlOptions this) = VUndefined)
  /\ (exists this,
        construct (world ∅) (Some options_without_callbackUrl) (Some verify)
        = ([], Ok this)
        /\ Saml.callbackUrl (_samlOptions this) = VUndefined).
Proof. split; eexists; split; reflexivity. Qed.

(** The redirect of [logout] does not depend on [returnUrl]. *)
Lemma logout_returnUrl_irrelevant (w : World) (r1 r2 : string)
    (err : value) :
  logout w r1 err = logout w r2 err.
Proof. reflexivity. Qed.

(** C2: the code breaks the claim.  [logout('/bye')] with single logout
    switched off ends the session and redirects to the logout endpoint of
    the IdP, not to ['/bye']. *)
Theorem logout_redirects_to_idp :
  logout (world {[ "ENABLE_SLO" := "false" ]}) "/bye" VUndefined
  = ([SessionLogout; Redirect staging_logout], Ok tt).
Proof. vm_compute. reflexivity. Qed.

(** C5: the code breaks the claim.  For an unrecognized environment name
    the constructor falls back to [STAGING], but [logout] reads [logoutUrl]
    from [undefined] and throws, before the session is ended. *)
Theorem logout_unknown_environment_throws :
  resolve_config
    (environment_name (world {[ "SAML_ENVIRONMENT" := "nonexistent-tier" ]}))
  = get UBC_CONFIG "STAGING"
  /\ logout (world {[ "SAML_ENVIRONMENT" := "nonexistent-tier" ]}) "/"
       VUndefined
     = ([], Throw (TypeError
                     "Cannot read properties of undefined (reading 'logoutUrl')")).
Proof. split; vm_compute; reflexivity. Qed.

(** C6, as amended.  The wrapped callback hands the application's callback
    a copy of the profile and the very completion function it received, so
    the application's result reaches the SAML engine unchanged.  When the
    configured list of friendly names is not empty, the copy carries under
    [attributes] the result of [mapAttributes] on the profile and that list,
    its other fields being those of the profile; when the list is empty the
    mapper is not run and the copy equals the profile. *)
Theorem wrappedVerify_relays {D R : Type} (attributeConfig : list string)
    (profile : obj) :
  wf_obj profile ->
  exists mapped : obj,
    (forall (verify : obj -> D -> R) (done : D),
        wrappedVerify attributeConfig verify profile done
        = verify mapped done)
    /\ (attributeConfig <> [] ->
        own mapped "attributes"
        = Some (VObj (mapAttributes (Some profile) (Some attributeConfig)))
        /\ forall k, k <> "attributes" -> own mapped k = own profile k)
    /\ (attributeConfig = [] -> mapped = profile).
Proof.
  intros Hwf.
  exists (if (0 <? length attributeConfig)%nat
          then assign profile "attributes"
                 (VObj (mapAttributes (Some profile) (Some attributeConfig)))
          else profile).
  split; [|split].
  - intros verify done. unfold wrappedVerify.
    now rewrite spread_wf by exact Hwf.
  - intros Hne. destruct attributeConfig as [|a l]; [contradiction|].
    cbn [length Nat.ltb Nat.leb].
    rewrite assign_set by discriminate. split.
    + apply own_set_eq.
    + intros k Hk. apply own_set_ne. congruence.
  - intros ->. reflexivity.
Qed.

Lemma wrappedVerify_relays_witness :
  wf_obj [("nameID", VStr "u1"); (oid_mail, VStr "a@ubc.ca")]
  /\ exists mapped : obj,
      (forall (verify : obj -> unit -> value) (done : unit),
          wrappedVerify ["mail"] verify
            [("nameID", VStr "u1"); (oid_mail, VStr "a@ubc.ca")] done
          = verify mapped done)
      /\ (["mail"] <> [] ->
          own mapped "attributes"
          = Some (VObj (mapAttributes
                          (Some [("nameID", VStr "u1");
                                 (oid_mail, VStr "a@ubc.ca")])
                          (Some ["mail"])))
          /\ forall k, k <> "attributes" ->
                       own mapped k
                       = own [("nameID", VStr "u1");
                              (oid_mail, VStr "a@ubc.ca")] k)
      /\ (["mail"] = [] ->
          mapped = [("nameID", VStr "u1"); (oid_mail, VStr "a@ubc.ca")]).
Proof.
  assert (Hwf : wf_obj [("nameID", VStr "u1"); (oid_mail, VStr "a@ubc.ca")]).
  { vm_compute. repeat constructor; rewrite list_elem_of_In; simpl;
      intuition discriminate. }
  split; [exact Hwf|].
  apply (wrappedVerify_relays (D:=unit) (R:=value) ["mail"]
           [("nameID", VStr "u1"); (oid_mail, VStr "a@ubc.ca")] Hwf).
Defined.

(** C6 as stated fails for the default, empty list of friendly names: the
    application's callback receives the profile as it came, with no
    [attributes], although [mapAttributes] with an empty list translates
    every key. *)
Lemma wrappedVerify_skips_mapper_without_names :
  wrappedVerify (D:=unit) [] (fun p _ => VObj p)
    [(oid_mail, VStr "a@ubc.ca")] tt
  = VObj [(oid_mail, VStr "a@ubc.ca")]
  /\ wrappedVerify (D:=unit) [] (fun p _ => get p "attributes")
       [(oid_mail, VStr "a@ubc.ca")] tt
     = VUndefined
  /\ mapAttributes (Some [(oid_mail, VStr "a@ubc.ca")]) (Some [])
     = [("mail", VStr "a@ubc.ca")].
Proof. repeat split; reflexivity. Qed.

End StrategyProperties.

(** ** Certificate extraction *)

Module CertificateFacts.
Import JS Strategy Notions.

#[local] Arguments String.append !s1 s2 : simpl nomatch.

Lemma chars_append (a b : string) :
  list_ascii_of_string (a +:+ b)
  = list_ascii_of_string a ++ list_ascii_of_string b.
Proof. induction a as [|c a IH]; simpl; [reflexivity | now rewrite IH]. Qed.

Lemma append_assoc (a b c : string) : (a +:+ b) +:+ c = a +:+ (b +:+ c).
Proof. induction a as [|x a IH]; simpl; [reflexivity | now rewrite IH]. Qed.

Lemma append_char_nonempty (a : string) (c : ascii) :
  a +:+ String c EmptyString <> EmptyString.
Proof. destruct a; discriminate. Qed.

Lemma strip_prefix_append (p s : string) :
  strip_prefix p (p +:+ s) = Some s.
Proof.
  induction p as [|c p IH]; simpl; [now destruct s|].
  now rewrite Ascii.eqb_refl.
Qed.

(** The group holds characters of its class only, and at least one. *)
Lemma plus_result (cls : ascii -> bool)
    (k : string -> string -> option string) (P : string -> Prop) :
  (forall taken s r,
      taken <> EmptyString ->
      forallb cls (list_ascii_of_string taken) = true ->
      k taken s = Some r -> P r) ->
  forall s taken r,
    forallb cls (list_ascii_of_string taken) = true ->
    plus cls k taken s = Some r -> P r.
Proof.
  intros Hk. induction s as [|c s IH]; intros taken r Ht H; simpl in H;
    [discriminate|].
  destruct (cls c) eqn:Ec; [|discriminate].
  assert (Ht' : forallb cls
                  (list_ascii_of_string (taken +:+ String c EmptyString))
                = true).
  { rewrite chars_append, forallb_app, Ht. simpl. now rewrite Ec. }
  destruct (plus cls k (taken +:+ String c EmptyString) s) as [r'|] eqn:Ep.
  - injection H as <-. eapply IH; eassumption.
  - eapply Hk; [apply append_char_nonempty | exact Ht' | exact H].
Qed.

Lemma star_result (cls : ascii -> bool) (k : string -> option string)
    (P : string -> Prop) :
  (forall s r, k s = Some r -> P r) ->
  forall s r, star cls k s = Some r -> P r.
Proof.
  intros Hk. induction s as [|c s IH]; intros r H; simpl in H.
  - eapply Hk; eassumption.
  - destruct (cls c); [|eapply Hk; eassumption].
    destruct (star cls k s) as [r'|] eqn:Es.
    + injection H as <-. now apply IH.
    + eapply Hk; eassumption.
Qed.

Lemma regex_match_result (p : list atom) (P : string -> Prop) :
  (forall s r, match_here p EmptyString s = Some r -> P r) ->
  forall s r, regex_match p s = Some r -> P r.
Proof.
  intros Hp. induction s as [|c s IH]; intros r H; simpl in H.
  - destruct (match_here p EmptyString EmptyString) eqn:E; [|discriminate].
    injection H as <-. eapply Hp; eassumption.
  - destruct (match_here p EmptyString (String c s)) eqn:E.
    + injection H as <-. eapply Hp; eassumption.
    + now apply IH.
Qed.

(** What [extractCertFromMetadata] returns is a non-empty run of base64
    characters: no white space in or around it. *)
Lemma extractCertFromMetadata_base64 (metadataXml cert : string) :
  extractCertFromMetadata metadataXml = Ok cert ->
  cert <> EmptyString /\ all_base64 cert = true.
Proof.
  unfold extractCertFromMetadata.
  destruct (regex_match cert_regex metadataXml) as [g|] eqn:E;
    [|discriminate].
  destruct (String.eqb_spec g ""); [discriminate|].
  intros [= <-]. split; [assumption|].
  apply (regex_match_result cert_regex (fun r => all_base64 r = true))
    with (s := metadataXml); [|exact E].
  clear. intros s r.
  unfold cert_regex. cbn [match_here].
  destruct (strip_prefix "<ds:X509Certificate" s) as [s1|]; [|discriminate].
  apply (star_result not_gt _ (fun r => all_base64 r = true)).
  clear. intros s2 r.
  destruct (strip_prefix ">" s2) as [s3|]; [|discriminate].
  apply (plus_result is_base64_char _ (fun r => all_base64 r = true));
    [|reflexivity].
  clear. intros taken s4 r _ Ht. cbn [match_here].
  destruct (strip_prefix "</ds:X509Certificate>" s4); [|discriminate].
  now intros [= <-].
Qed.

Lemma plus_stops (cls : ascii -> bool)
    (k : string -> string -> option string) (taken s : string) :
  stops cls s = true -> plus cls k taken s = None.
Proof.
  destruct s as [|c s]; simpl; [reflexivity|].
  now destruct (cls c).
Qed.

(** The group takes the longest run when the rest of the expression matches
    after it. *)
Lemma plus_longest (cls : ascii -> bool)
    (k : string -> string -> option string) (run tail r : string) :
  forall taken,
    run <> EmptyString ->
    forallb cls (list_ascii_of_string run) = true ->
    stops cls tail = true ->
    k (taken +:+ run) tail = Some r ->
    plus cls k taken (run +:+ tail) = Some r.
Proof.
  induction run as [|c run IH]; intros taken Hne Hall Hstop Hk;
    [contradiction|].
  simpl in Hall. apply andb_prop in Hall as [Ec Hall].
  simpl. rewrite Ec.
  destruct run as [|c' run'].
  - simpl. rewrite plus_stops by exact Hstop. exact Hk.
  - rewrite (IH (taken +:+ String c EmptyString)); [reflexivity| | | |].
    + discriminate.
    + exact Hall.
    + exact Hstop.
    + rewrite append_assoc. exact Hk.
Qed.

Lemma star_stops (cls : ascii -> bool) (k : string -> option string)
    (s : string) :
  stops cls s = true -> star cls k s = k s.
Proof.
  destruct s as [|c s]; simpl; [reflexivity|].
  now destruct (cls c).
Qed.

Lemma match_here_lit (l : string) (p : list atom) (g s : string) :
  match_here (Lit l :: p) g (l +:+ s) = match_here p g s.
Proof. cbn [match_here]. now rewrite strip_prefix_append. Qed.

Lemma match_here_star (cls : ascii -> bool) (p : list atom) (g s : string) :
  match_here (Star cls :: p) g s = star cls (match_here p g) s.
Proof. reflexivity. Qed.

Lemma match_here_group (cls : ascii -> bool) (p : list atom)
    (g s : string) :
  match_here (GroupPlus cls :: p) g s
  = plus cls (match_here p) EmptyString s.
Proof. reflexivity. Qed.

Lemma regex_match_here (p : list atom) (s r : string) :
  match_here p EmptyString s = Some r -> regex_match p s = Some r.
Proof. intros H. destruct s; simpl; now rewrite H. Qed.

(** An element at the head of the document whose text is a run of base64
    characters directly between the tags is extracted. *)
Lemma extractCertFromMetadata_element (cert rest : string) :
  cert <> EmptyString ->
  all_base64 cert = true ->
  extractCertFromMetadata
    ("<ds:X509Certificate>" +:+ cert +:+ "</ds:X509Certificate>" +:+ rest)
  = Ok cert.
Proof.
  intros Hne Hall. unfold extractCertFromMetadata.
  rewrite (regex_match_here _ _ cert).
  - destruct (String.eqb_spec cert ""); [contradiction | reflexivity].
  - change ("<ds:X509Certificate>" +:+ cert
            +:+ "</ds:X509Certificate>" +:+ rest)
      with ("<ds:X509Certificate"
            +:+ (">" +:+ cert +:+ "</ds:X509Certificate>" +:+ rest)).
    unfold cert_regex. rewrite match_here_lit.
    rewrite match_here_star, star_stops by reflexivity.
    rewrite match_here_lit, match_here_group.
    apply plus_longest; try assumption.
    + destruct rest; reflexivity.
    + change (EmptyString +:+ cert) with cert.
      now rewrite match_here_lit.
Qed.

(** Without the opening tag there is nothing to extract. *)
Lemma extractCertFromMetadata_no_element (metadataXml : string) :
  contains "<ds:X509Certificate" metadataXml = false ->
  extractCertFromMetadata metadataXml
  = Throw (Error "No X509Certificate found in IdP metadata").
Proof.
  intros H. unfold extractCertFromMetadata.
  assert (E : regex_match cert_regex metadataXml = None); [|now rewrite E].
  induction metadataXml as [|c s IH].
  - reflexivity.
  - cbn [contains] in H.
    destruct (strip_prefix "<ds:X509Certificate" (String c s)) eqn:Es;
      [discriminate|].
    cbn [regex_match]. unfold cert_regex at 1. cbn [match_here].
    rewrite Es. now apply IH.
Qed.

(** C9: the code breaks the claim.  On metadata whose single certificate
    element holds its text on lines of its own, as Shibboleth publishes it,
    the extraction finds no certificate; on the same text directly between
    the tags it returns it. *)
Theorem extractCertFromMetadata_rejects_multiline :
  extractCertFromMetadata metadata_multiline
  = Throw (Error "No X509Certificate found in IdP metadata")
  /\ extractCertFromMetadata metadata_inline
     = Ok "MIIDHzCCAgegAwIBAgIUQ0dVbGliMB4XDTI0".
Proof. split; vm_compute; reflexivity. Qed.

End CertificateFacts.

(** ** Further properties of the attribute mapper *)

Module MapperLaws.
Import JS Attributes Notions JSFacts AttributesFacts Mapper.

Lemma translate_fixed (k : string) :
  is_prototype_name k = false ->
  own ATTRIBUTE_MAPPINGS (translate k) = None
  /\ is_prototype_name (translate k) = false.
Proof.
  intros Hk. unfold translate.
  destruct (own ATTRIBUTE_MAPPINGS k) as [v|] eqn:E.
  - apply own_In in E. unfold ATTRIBUTE_MAPPINGS in E. simpl in E.
    repeat (destruct E as [E|E]; [injection E as <- <-; split; reflexivity|]).
    contradiction.
  - split; assumption.
Qed.

Lemma translate_id (k : string) :
  own ATTRIBUTE_MAPPINGS k = None -> translate k = k.
Proof. intros H. unfold translate. now rewrite H. Qed.

(** X1.  Translating a wire identifier twice is translating it once: for
    every name that [Object.prototype] does not define, [getFriendlyName]
    applied to its own result returns that result. *)
Theorem getFriendlyName_idempotent (k : string) :
  is_prototype_name k = false ->
  getFriendlyName (to_key (getFriendlyName k)) = getFriendlyName k.
Proof.
  intros Hk. rewrite getFriendlyName_translate by exact Hk.
  destruct (translate_fixed k Hk) as [Hown Hp].
  assert (E : forall x, is_prototype_name x = false ->
                        getFriendlyName x = VStr (translate x)).
  { intros x Hx. unfold getFriendlyName, translate, get.
    destruct (own ATTRIBUTE_MAPPINGS x) as [v|] eqn:E.
    - apply own_In in E. unfold ATTRIBUTE_MAPPINGS in E. simpl in E.
      repeat (destruct E as [E|E]; [injection E as <- <-; reflexivity|]).
      contradiction.
    - now rewrite inherited_not_prototype. }
  rewrite (E _ Hp), (E _ Hk). f_equal. now apply translate_id.
Qed.

Lemma getFriendlyName_idempotent_witness :
  getFriendlyName (to_key (getFriendlyName oid_mail))
  = getFriendlyName oid_mail.
Proof. apply (getFriendlyName_idempotent oid_mail). reflexivity. Defined.

(** X2.  With a non-empty list of requested names, every key of the result
    of [mapAttributes] is one of the requested names. *)
Theorem mapAttributes_only_requested
    (raw : obj) (requested : list string) (k : string) (v : value) :
  requested <> [] ->
  own (mapAttributes (Some raw) (Some requested)) k = Some v ->
  In k requested.
Proof.
  intros Hne. rewrite mapAttributes_requested by exact Hne.
  destruct (String.eqb_spec k "__proto__") as [->|Hk].
  - now rewrite own_requested_proto.
  - rewrite own_requested by exact Hk.
    destruct (mem k requested) eqn:E; [|discriminate].
    intros _. now apply mem_In.
Qed.

Lemma mapAttributes_only_requested_witness :
  In "mail" ["mail"; "sn"].
Proof.
  apply (mapAttributes_only_requested
           [(oid_mail, VStr "a@ubc.ca"); (oid_puid, VStr "12345678")]
           ["mail"; "sn"] "mail" (VStr "a@ubc.ca")).
  - discriminate.
  - reflexivity.
Defined.



Lemma friendlyToOid_wire_nonempty (name wire : string) :
  get friendlyToOid name = VStr wire ->
  wire <> "" /\ name <> "__proto__".
Proof.
  unfold get. rewrite friendlyToOid_value. cbn [own].
  split_keys name; try (intros [= <-]; split; discriminate).
  unfold inherited. destruct (is_prototype_name name); discriminate.
Qed.

(** X4.  The wire identifier has precedence: when the assertion holds a
    truthy value under the wire identifier that the reverse mapping keeps
    for a requested name, the name is bound to that value, whatever the
    assertion holds under the name itself. *)
Theorem mapAttributes_prefers_wire
    (raw : obj) (requested : list string) (name wire : string) (v : value) :
  In name requested ->
  get friendlyToOid name = VStr wire ->
  own raw wire = Some v ->
  truthy v = true ->
  own (mapAttributes (Some raw) (Some requested)) name = Some v.
Proof.
  intros Hin Ho Hw Hv.
  destruct (friendlyToOid_wire_nonempty name wire Ho) as [Hne Hp].
  rewrite own_mapAttributes_requested by exact Hin.
  destruct (String.eqb_spec name "__proto__"); [contradiction|].
  unfold selected, wire_lookup, js_and. rewrite Ho. cbn [to_key truthy].
  destruct (String.eqb_spec wire ""); [contradiction|]. cbn [negb].
  unfold get at 1 2. rewrite Hw, Hv. reflexivity.
Qed.

Lemma mapAttributes_prefers_wire_witness :
  own (mapAttributes
         (Some [("mail", VStr "old@ubc.ca"); (oid_mail, VStr "a@ubc.ca")])
         (Some ["mail"])) "mail" = Some (VStr "a@ubc.ca").
Proof.
  apply (mapAttributes_prefers_wire
           [("mail", VStr "old@ubc.ca"); (oid_mail, VStr "a@ubc.ca")]
           ["mail"] "mail" oid_mail (VStr "a@ubc.ca")).
  - simpl. tauto.
  - reflexivity.
  - reflexivity.
  - reflexivity.
Defined.

(** X5.  The verbatim fallback: a requested name that [Object.prototype]
    does not define, whose wire identifier (if it has one) brings no truthy
    value, is bound to the truthy value that the assertion holds under the
    name itself. *)
Theorem mapAttributes_verbatim_fallback
    (raw : obj) (requested : list string) (name : string) (v : value) :
  In name requested ->
  is_prototype_name name = false ->
  (forall wire, get friendlyToOid name = VStr wire ->
                truthy (get raw wire) = false) ->
  own raw name = Some v ->
  truthy v = true ->
  own (mapAttributes (Some raw) (Some requested)) name = Some v.
Proof.
  intros Hin Hp Hwire Hn Hv.
  rewrite own_mapAttributes_requested by exact Hin.
  destruct (String.eqb_spec name "__proto__") as [->|_]; [discriminate|].
  assert (Hw : truthy (wire_lookup raw name) = false).
  { unfold wire_lookup, js_and.
    destruct (friendlyToOid_cases name Hp) as [Ho|(wire & Ho & _)];
      rewrite Ho; [reflexivity|].
    cbn [to_key].
    destruct (truthy (VStr wire)) eqn:E; [exact (Hwire wire Ho) | exact E]. }
  unfold selected. rewrite Hw. unfold get. rewrite Hn, Hv. reflexivity.
Qed.

Lemma mapAttributes_verbatim_fallback_witness :
  own (mapAttributes
         (Some [("mail", VStr "a@ubc.ca"); ("studentNumber", VStr "42")])
         (Some ["mail"; "studentNumber"])) "studentNumber"
  = Some (VStr "42")
  /\ own (mapAttributes
            (Some [("mail", VStr "a@ubc.ca"); ("studentNumber", VStr "42")])
            (Some ["mail"; "studentNumber"])) "mail"
     = Some (VStr "a@ubc.ca").
Proof.
  split.
  - apply (mapAttributes_verbatim_fallback
             [("mail", VStr "a@ubc.ca"); ("studentNumber", VStr "42")]
             ["mail"; "studentNumber"] "studentNumber" (VStr "42")).
    + simpl. tauto.
    + reflexivity.
    + intros wire [=].
    + reflexivity.
    + reflexivity.
  - apply (mapAttributes_verbatim_fallback
             [("mail", VStr "a@ubc.ca"); ("studentNumber", VStr "42")]
             ["mail"; "studentNumber"] "mail" (VStr "a@ubc.ca")).
    + simpl. tauto.
    + reflexivity.
    + intros wire [= <-]. reflexivity.
    + reflexivity.
    + reflexivity.
Defined.

(** X6.  The result of [mapAttributes] depends on the requested names as a
    set: two non-empty lists with the same elements, in any order and with
    any repetition, give results with the same bindings. *)
Theorem mapAttributes_requested_as_set
    (raw : obj) (requested1 requested2 : list string) (k : string) :
  requested1 <> [] ->
  (forall x, In x requested1 <-> In x requested2) ->
  own (mapAttributes (Some raw) (Some requested1)) k
  = own (mapAttributes (Some raw) (Some requested2)) k.
Proof.
  intros Hne Hsame.
  assert (Hne2 : requested2 <> []).
  { destruct requested1 as [|a l]; [contradiction|].
    intros ->. apply (Hsame a). now left. }
  rewrite !mapAttributes_requested by assumption.
  destruct (String.eqb_spec k "__proto__") as [->|Hk].
  - now rewrite !own_requested_proto.
  - rewrite !own_requested by exact Hk.
    assert (E : mem k requested1 = mem k requested2).
    { destruct (mem k requested1) eqn:E1, (mem k requested2) eqn:E2;
        try reflexivity.
      - apply mem_In, Hsame, mem_In in E1. congruence.
      - apply mem_In, Hsame, mem_In in E2. congruence. }
    now rewrite E.
Qed.

Lemma mapAttributes_requested_as_set_witness :
  own (mapAttributes (Some [(oid_mail, VStr "a@ubc.ca")])
         (Some ["mail"; "sn"])) "mail"
  = own (mapAttributes (Some [(oid_mail, VStr "a@ubc.ca")])
           (Some ["sn"; "mail"; "sn"])) "mail".
Proof.
  apply (mapAttributes_requested_as_set [(oid_mail, VStr "a@ubc.ca")]
           ["mail"; "sn"] ["sn"; "mail"; "sn"] "mail").
  - discriminate.
  - intros x. simpl. tauto.
Defined.

End MapperLaws.

Module PassThroughLaws.
Import JS Attributes Notions JSFacts AttributesFacts Mapper MapperLaws.

Lemma last_translated_source (l : list (string * value)) (key : string)
    (v : value) :
  last_translated l key = Some v ->
  exists k, In (k, v) l /\ translate k = key.
Proof.
  induction l as [|[k0 v0] l IH]; simpl; [discriminate|].
  destruct (last_translated l key) as [v'|].
  - intros [= <-]. destruct (IH eq_refl) as (k & Hin & Hk).
    exists k. split; [now right | exact Hk].
  - destruct (String.eqb_spec (translate k0) key) as [Hk|]; [|discriminate].
    intros [= <-]. exists k0. split; [now left | exact Hk].
Qed.

Lemma passthrough_own (raw : obj) (key : string) :
  Forall (fun k => is_prototype_name k = false) (keys raw) ->
  own (mapAttributes (Some raw) (Some [])) key = last_translated raw key.
Proof.
  intros Hp. unfold mapAttributes, entries. simpl.
  rewrite passthrough_last by exact Hp.
  now destruct (last_translated raw key).
Qed.

(** X7.  Full pass-through resolves a clash by position: when no key of
    the assertion is a property name of [Object.prototype],
    [mapAttributes(raw, [])] binds a key to the value of the last entry of
    [raw], in enumeration order, whose key translates to it; and leaving the
    list of names out is the same as passing the empty list. *)
Theorem mapAttributes_passthrough_last_wins (raw : obj) (key : string) :
  Forall (fun k => is_prototype_name k = false) (keys raw) ->
  own (mapAttributes (Some raw) (Some [])) key = last_translated raw key
  /\ mapAttributes (Some raw) None = mapAttributes (Some raw) (Some []).
Proof. intros Hp. split; [now apply passthrough_own | reflexivity]. Qed.

Lemma mapAttributes_passthrough_last_wins_witness :
  own (mapAttributes
         (Some [(oid_puid, VStr "b"); ("sn", VStr "s"); (mace_puid, VStr "a")])
         (Some [])) "ubcEduCwlPuid"
  = last_translated
      [(oid_puid, VStr "b"); ("sn", VStr "s"); (mace_puid, VStr "a")]
      "ubcEduCwlPuid"
  /\ mapAttributes
       (Some [(oid_puid, VStr "b"); ("sn", VStr "s"); (mace_puid, VStr "a")])
       None
     = mapAttributes
         (Some [(oid_puid, VStr "b"); ("sn", VStr "s"); (mace_puid, VStr "a")])
         (Some []).
Proof.
  apply (mapAttributes_passthrough_last_wins
           [(oid_puid, VStr "b"); ("sn", VStr "s"); (mace_puid, VStr "a")]
           "ubcEduCwlPuid").
  repeat constructor.
Defined.

(** X8.  Full pass-through neither drops nor invents keys: when no key of
    the assertion is a property name of [Object.prototype], the translation
    of every key of [raw] is a key of [mapAttributes(raw, [])], and every
    binding of the result is the value of an entry of [raw] under the
    translation of that entry's key. *)
Theorem mapAttributes_passthrough_keys (raw : obj) :
  Forall (fun k => is_prototype_name k = false) (keys raw) ->
  (forall k, In k (keys raw) ->
             own (mapAttributes (Some raw) (Some [])) (translate k) <> None)
  /\ (forall k' v, own (mapAttributes (Some raw) (Some [])) k' = Some v ->
                   exists k, In (k, v) raw /\ translate k = k').
Proof.
  intros Hp. split.
  - intros k Hin. rewrite passthrough_own by exact Hp.
    now apply last_translated_In.
  - intros k' v. rewrite passthrough_own by exact Hp.
    apply last_translated_source.
Qed.

Lemma mapAttributes_passthrough_keys_witness :
  (forall k, In k (keys [(mace_puid, VStr "a"); (oid_puid, VStr "b")]) ->
             own (mapAttributes
                    (Some [(mace_puid, VStr "a"); (oid_puid, VStr "b")])
                    (Some [])) (translate k) <> None)
  /\ (forall k' v,
         own (mapAttributes
                (Some [(mace_puid, VStr "a"); (oid_puid, VStr "b")])
                (Some [])) k' = Some v ->
         exists k, In (k, v) [(mace_puid, VStr "a"); (oid_puid, VStr "b")]
                   /\ translate k = k').
Proof.
  apply (mapAttributes_passthrough_keys
           [(mace_puid, VStr "a"); (oid_puid, VStr "b")]).
  repeat constructor.
Defined.

Lemma keys_set (o : obj) (k : string) (v : value) :
  keys (set o k v) = keys o
  \/ (keys (set o k v) = keys o ++ [k] /\ ~ In k (keys o)).
Proof.
  induction o as [|[k0 v0] o IH]; simpl.
  - right. split; [reflexivity | tauto].
  - destruct (String.eqb_spec k0 k) as [->|Hne]; simpl; [now left|].
    destruct IH as [->|[-> Hn]]; [now left|].
    right. split; [reflexivity | tauto].
Qed.

Lemma wf_set (o : obj) (k : string) (v : value) :
  wf_obj o -> wf_obj (set o k v).
Proof.
  unfold wf_obj. intros Hwf.
  destruct (keys_set o k v) as [->|[-> Hn]]; [exact Hwf|].
  apply NoDup_app. split; [exact Hwf|]. split.
  - intros x Hx Hk. apply list_elem_of_In in Hx, Hk.
    destruct Hk as [<-|[]]. contradiction.
  - apply NoDup_singleton.
Qed.

Lemma Forall_keys_set (P : string -> Prop) (o : obj) (k : string)
    (v : value) :
  P k -> List.Forall P (keys o) -> List.Forall P (keys (set o k v)).
Proof.
  intros Hk Ho.
  destruct (keys_set o k v) as [->|[-> _]]; [exact Ho|].
  apply Forall_app. split; [exact Ho | now constructor].
Qed.

(** The objects built by full pass-through: each key once, none a wire
    identifier of the dictionary, none defined by [Object.prototype]. *)
Lemma passthrough_invariant (l : list (string * value)) (acc : obj) :
  Forall (fun k => is_prototype_name k = false) (keys l) ->
  wf_obj acc ->
  Forall (fun k => own ATTRIBUTE_MAPPINGS k = None
                   /\ is_prototype_name k = false) (keys acc) ->
  wf_obj (fold_left
            (fun mappedUser kv =>
               assign mappedUser (to_key (getFriendlyName (fst kv))) (snd kv))
            l acc)
  /\ Forall (fun k => own ATTRIBUTE_MAPPINGS k = None
                      /\ is_prototype_name k = false)
       (keys (fold_left
                (fun mappedUser kv =>
                   assign mappedUser (to_key (getFriendlyName (fst kv)))
                     (snd kv))
                l acc)).
Proof.
  revert acc. induction l as [|[k v] l IH]; intros acc Hp Hwf Hacc; simpl;
    [now split|].
  simpl in Hp. apply Forall_cons in Hp as [Hk Hp].
  rewrite passthrough_step by exact Hk.
  apply IH; [exact Hp | now apply wf_set |].
  apply Forall_keys_set; [now apply translate_fixed | exact Hacc].
Qed.

(** On an object whose keys are friendly already, full pass-through is the
    identity. *)
Lemma passthrough_identity (r : obj) :
  wf_obj r ->
  Forall (fun k => own ATTRIBUTE_MAPPINGS k = None
                   /\ is_prototype_name k = false) (keys r) ->
  mapAttributes (Some r) (Some []) = r.
Proof.
  intros Hwf Hr.
  assert (Hmap : map translated r = r).
  { clear Hwf. induction r as [|[k v] r IH]; [reflexivity|].
    simpl in Hr. apply Forall_cons in Hr as [[Hk _] Hr].
    simpl. unfold translated at 1. simpl.
    rewrite (translate_id k Hk). f_equal. now apply IH. }
  unfold mapAttributes, entries. simpl.
  rewrite passthrough_distinct.
  - exact Hmap.
  - eapply Forall_impl; [exact Hr|]. now intros k [_ Hk].
  - simpl. rewrite <- keys_translated, Hmap. exact Hwf.
Qed.

(** X9.  Full pass-through is idempotent: when no key of the assertion is a
    property name of [Object.prototype], passing the result of
    [mapAttributes(raw, [])] through [mapAttributes(_, [])] again returns it
    unchanged. *)
Theorem mapAttributes_passthrough_idempotent (raw : obj) :
  Forall (fun k => is_prototype_name k = false) (keys raw) ->
  mapAttributes (Some (mapAttributes (Some raw) (Some []))) (Some [])
  = mapAttributes (Some raw) (Some []).
Proof.
  intros Hp.
  destruct (passthrough_invariant raw [] Hp) as [Hwf Hkeys].
  - apply NoDup_nil_2.
  - constructor.
  - now apply passthrough_identity.
Qed.

Lemma mapAttributes_passthrough_idempotent_witness :
  mapAttributes
    (Some (mapAttributes
             (Some [(mace_puid, VStr "a"); (oid_puid, VStr "b");
                    ("nameID", VStr "n")])
             (Some [])))
    (Some [])
  = mapAttributes
      (Some [(mace_puid, VStr "a"); (oid_puid, VStr "b");
             ("nameID", VStr "n")])
      (Some []).
Proof.
  apply (mapAttributes_passthrough_idempotent
           [(mace_puid, VStr "a"); (oid_puid, VStr "b");
            ("nameID", VStr "n")]).
  repeat constructor.
Defined.

End PassThroughLaws.

(** ** Further properties of the strategy *)

Module StrategyLaws.
Import JS Attributes Strategy Notions Terms JSFacts StrategyFacts.

Lemma bind_ret {A B} (a : A) (k : A -> M B) : bind (ret a) k = k a.
Proof. unfold bind, ret. now destruct (k a). Qed.

Lemma or_else_row (a : value) (row : obj) (k : string) :
  or_else a (lift (member (VObj row) k)) = ret (js_or a (get row k)).
Proof. unfold or_else, js_or, lift. now destruct (truthy a). Qed.

Lemma resolve_config_upper (s : string) :
  resolve_config (toUpperCase s)
  = get UBC_CONFIG (environment_row (toUpperCase s)).
Proof.
  destruct (resolve_config_total s) as [-> _].
  unfold environment_row, UBC_CONFIG. cbn [own].
  destruct (String.eqb_spec "LOCAL" (toUpperCase s)) as [<-|H1];
    [reflexivity|].
  destruct (String.eqb_spec (toUpperCase s) "LOCAL"); [congruence|].
  destruct (String.eqb_spec "STAGING" (toUpperCase s)) as [<-|H2];
    [reflexivity|].
  destruct (String.eqb_spec "PRODUCTION" (toUpperCase s)) as [<-|H3];
    [reflexivity|].
  destruct (String.eqb_spec (toUpperCase s) "PRODUCTION"); [congruence|].
  reflexivity.
Qed.

Lemma environment_name_upper (w : World) :
  exists s, environment_name w = toUpperCase s.
Proof. unfold environment_name. eauto. Qed.

Lemma resolve_environment (w : World) :
  exists row,
    resolve_config (environment_name w) = VObj row
    /\ In (environment_row (environment_name w), VObj row) UBC_CONFIG.
Proof.
  destruct (environment_name_upper w) as [s ->].
  rewrite resolve_config_upper. unfold environment_row.
  destruct (String.eqb (toUpperCase s) "LOCAL");
    [|destruct (String.eqb (toUpperCase s) "PRODUCTION")];
    eexists; (split; [reflexivity|]); simpl; tauto.
Qed.

(** X10.  The expression [UBC_CONFIG[environment] || UBC_CONFIG.STAGING]
    of the constructor yields a row of [UBC_CONFIG] for every name without a
    lower-case ASCII letter, as every upper-cased name is: [LOCAL] and
    [PRODUCTION] select their own rows, and every other such name,
    recognized or not, selects [STAGING]. *)
Theorem resolve_config_row (environment : string) :
  has_lower environment = false ->
  resolve_config environment
  = get UBC_CONFIG
      (if String.eqb environment "LOCAL" then "LOCAL"
       else if String.eqb environment "PRODUCTION" then "PRODUCTION"
       else "STAGING")
  /\ exists row, resolve_config environment = VObj row.
Proof.
  intros Hl.
  assert (Hp : is_prototype_name environment = false).
  { destruct (is_prototype_name environment) eqn:E; [|reflexivity].
    apply prototype_name_has_lower in E. congruence. }
  assert (Hg : get UBC_CONFIG environment =
               match own UBC_CONFIG environment with
               | Some v => v
               | None => VUndefined
               end).
  { unfold get. destruct (own UBC_CONFIG environment); [reflexivity|].
    unfold inherited. now rewrite Hp. }
  unfold resolve_config. rewrite Hg. unfold UBC_CONFIG. cbn [own].
  destruct (String.eqb_spec "LOCAL" environment) as [<-|H1];
    [split; [reflexivity | eexists; reflexivity]|].
  destruct (String.eqb_spec environment "LOCAL"); [congruence|].
  destruct (String.eqb_spec "STAGING" environment) as [<-|H2];
    [split; [reflexivity | eexists; reflexivity]|].
  destruct (String.eqb_spec "PRODUCTION" environment) as [<-|H3];
    [split; [reflexivity | eexists; reflexivity]|].
  destruct (String.eqb_spec environment "PRODUCTION"); [congruence|].
  split; [reflexivity | eexists; reflexivity].
Qed.

Lemma resolve_config_row_witness :
  (resolve_config "PRODUCTION" = get UBC_CONFIG "PRODUCTION"
   /\ exists row, resolve_config "PRODUCTION" = VObj row)
  /\ (resolve_config "NONEXISTENT-TIER" = get UBC_CONFIG "STAGING"
      /\ exists row, resolve_config "NONEXISTENT-TIER" = VObj row).
Proof.
  split.
  - apply (resolve_config_row "PRODUCTION"). reflexivity.
  - apply (resolve_config_row "NONEXISTENT-TIER"). reflexivity.
Defined.

(** What a successful construction has done. *)
Lemma construct_ok_inv {D R} (w : World) (options : Opt.t)
    (verify : obj -> D -> R) (this : UBCStrategy D R) :
  outcome (construct w (Some options) (Some verify)) = Ok this ->
  exists row key certs0,
    resolve_config (environment_name w) = VObj row
    /\ In (environment_row (environment_name w), VObj row) UBC_CONFIG
    /\ outcome (load_key_option w options) = Ok key
    /\ truthy (Opt.cert options) = true
    /\ SamlStrategy w
         (saml_options options
            (js_or (Opt.entryPoint options) (get row "entryPoint"))
            (js_or (Opt.logoutUrl options) (get row "logoutUrl")) key)
       = Ok certs0
    /\ this =
       {| ubcOptions :=
            ubc_options w options
              (js_or (Opt.metadataUrl options) (get row "metadataUrl"));
          name := "ubcshib";
          _samlOptions :=
            saml_options options
              (js_or (Opt.entryPoint options) (get row "entryPoint"))
              (js_or (Opt.logoutUrl options) (get row "logoutUrl")) key;
          certs := certs0;
          _verify :=
            wrappedVerify
              (match Opt.attributeConfig options with
               | Some l => l
               | None => []
               end) verify |}.
Proof.
  intros H. unfold construct in H. cbv zeta in H.
  destruct (resolve_environment w) as (row & Hrow & Hin).
  rewrite Hrow in H. rewrite !or_else_row, !bind_ret in H.
  apply bind_ok_inv in H as (privateKey & Hpk & H).
  apply bind_ok_inv in H as (decryptionPvk & Hdk & H).
  apply bind_ok_inv in H as (cert & Hcert & H).
  apply or_else_throw_ok in Hcert as [-> Ht].
  rewrite ?or_else_row, ?bind_ret in H.
  apply bind_ok_inv in H as (certs0 & Hparent & H).
  apply bind_ok_inv in H as (_ & _ & H).
  assert (decryptionPvk = privateKey) as -> by congruence.
  exists row, privateKey, certs0.
  repeat split; try assumption.
  unfold ret, outcome in H. simpl in H. now injection H as <-.
Qed.

(** The three ways in which the key option is settled. *)
Lemma load_key_option_cases (w : World) (options : Opt.t) :
  (load_key_option w options = ([], Ok VNull)
   /\ (Opt.privateKeyPath options = None
       \/ Opt.privateKeyPath options = Some ""))
  \/ (exists p, Opt.privateKeyPath options = Some p /\ p <> ""
       /\ ((exists content,
               readFileSync w (absolute_path w p) = inl content
               /\ load_key_option w options
                  = ([ReadFile (absolute_path w p)], Ok (VStr content)))
           \/ (exists msg,
                 readFileSync w (absolute_path w p) = inr msg
                 /\ load_key_option w options
                    = ([ReadFile (absolute_path w p)],
                       Throw (Error ("Failed to load private key from "
                                     +:+ p +:+ ": " +:+ msg)))))).
Proof.
  unfold load_key_option, loadPrivateKey, absolute_path.
  destruct (Opt.privateKeyPath options) as [p|]; [|left; split; auto].
  destruct (String.eqb_spec p "") as [->|Hp]; [left; split; auto|].
  right. exists p. split; [reflexivity|]. split; [exact Hp|].
  destruct (readFileSync w _) as [content|msg]; [left|right];
    eexists; split; reflexivity.
Qed.

(** The constructor, step by step, once options and callback are there. *)
Lemma construct_eq {D R} (w : World) (options : Opt.t)
    (verify : obj -> D -> R) :
  exists row,
    resolve_config (environment_name w) = VObj row
    /\ construct w (Some options) (Some verify) =
       match load_key_option w options with
       | (t, Throw e) => (t, Throw e)
       | (t, Ok key) =>
           if truthy (Opt.cert options) then
             match SamlStrategy w
                     (saml_options options
                        (js_or (Opt.entryPoint options) (get row "entryPoint"))
                        (js_or (Opt.logoutUrl options) (get row "logoutUrl"))
                        key) with
             | Ok certs0 =>
                 (t ++ t,
                  Ok {| ubcOptions :=
                          ubc_options w options
                            (js_or (Opt.metadataUrl options)
                               (get row "metadataUrl"));
                        name := "ubcshib";
                        _samlOptions :=
                          saml_options options
                            (js_or (Opt.entryPoint options)
                               (get row "entryPoint"))
                            (js_or (Opt.logoutUrl options)
                               (get row "logoutUrl")) key;
                        certs := certs0;
                        _verify :=
                          wrappedVerify
                            (match Opt.attributeConfig options with
                             | Some l => l
                             | None => []
                             end) verify |})
             | Throw e => (t ++ t, Throw e)
             end
           else (t ++ t, Throw (Error cert_required))
       end.
Proof.
  destruct (resolve_environment w) as (row & Hrow & _).
  exists row. split; [exact Hrow|].
  unfold construct. cbv zeta. rewrite Hrow.
  rewrite !or_else_row, !bind_ret.
  destruct (load_key_option w options) as [t [key|e]]; [|reflexivity].
  cbn [bind]. unfold or_else, saml_options, ubc_options.
  destruct (truthy (Opt.cert options)) eqn:Hc.
  - cbn [bind ret throw app]. rewrite ?or_else_row. unfold lift.
    destruct (SamlStrategy w _) as [certs0|e];
      cbn [bind ret app Saml.cert ubcOptions Ubc.metadataUrl];
      rewrite ?Hc; cbn; rewrite ?app_nil_r; reflexivity.
  - cbn. rewrite ?app_nil_r. reflexivity.
Qed.

(** X11.  The only effects of the constructor are reads of the key file:
    none without a key path, one when the file cannot be read, two when it
    can (once for [privateKey], once for [decryptionPvk]); no other file is
    read and no network request is started. *)
Theorem construct_trace {D R} (w : World) (options : Opt.t)
    (verify : obj -> D -> R) :
  trace (construct w (Some options) (Some verify)) =
  match Opt.privateKeyPath options with
  | Some p =>
      if String.eqb p "" then []
      else
        match readFileSync w (absolute_path w p) with
        | inl _ => [ReadFile (absolute_path w p);
                    ReadFile (absolute_path w p)]
        | inr _ => [ReadFile (absolute_path w p)]
        end
  | None => []
  end.
Proof.
  destruct (construct_eq w options verify) as (row & _ & ->).
  destruct (load_key_option_cases w options)
    as [[-> Hp]|(p & Hp & Hne & [(c & Hr & ->)|(msg & Hr & ->)])].
  - assert (E : match Opt.privateKeyPath options with
                | Some p => if String.eqb p "" then [] else
                    match readFileSync w (absolute_path w p) with
                    | inl _ => [ReadFile (absolute_path w p);
                                ReadFile (absolute_path w p)]
                    | inr _ => [ReadFile (absolute_path w p)]
                    end
                | None => []
                end = @nil event).
    { destruct Hp as [->| ->]; reflexivity. }
    rewrite E.
    destruct (truthy (Opt.cert options)); [|reflexivity].
    now destruct (SamlStrategy w _).
  - rewrite Hp, Hr. destruct (String.eqb_spec p ""); [contradiction|].
    destruct (truthy (Opt.cert options)); [|reflexivity].
    now destruct (SamlStrategy w _).
  - rewrite Hp, Hr. destruct (String.eqb_spec p ""); [contradiction|].
    reflexivity.
Qed.

(** X12.  An unreadable key file stops the constructor: it throws
    "Failed to load private key from <path>: <reason>", with the path as it
    was given, after one read of the resolved path, whether or not a
    certificate is there, and the parent constructor is not reached. *)
Theorem construct_key_unreadable {D R} (w : World) (options : Opt.t)
    (verify : obj -> D -> R) (p msg : string) :
  Opt.privateKeyPath options = Some p ->
  p <> "" ->
  readFileSync w (absolute_path w p) = inr msg ->
  construct w (Some options) (Some verify)
  = ([ReadFile (absolute_path w p)],
     Throw (Error ("Failed to load private key from " +:+ p +:+ ": "
                   +:+ msg))).
Proof.
  intros Hp Hne Hr.
  destruct (construct_eq w options verify) as (row & _ & ->).
  destruct (load_key_option_cases w options)
    as [[_ [H|H]]|(p' & Hp' & _ & [(c & Hr' & _)|(msg' & Hr' & ->)])];
    congruence.
Qed.

Lemma construct_key_unreadable_witness :
  construct (D:=unit) (R:=value) (world ∅) (Some options_with_key)
    (Some (fun p _ => VObj p))
  = ([ReadFile "/srv/app/certs/sp-key.pem"],
     Throw (Error ("Failed to load private key from certs/sp-key.pem: "
                   +:+ "ENOENT: no such file or directory"))).
Proof.
  apply (construct_key_unreadable (D:=unit) (R:=value) (world ∅)
           options_with_key (fun p _ => VObj p) "certs/sp-key.pem"
           "ENOENT: no such file or directory").
  - reflexivity.
  - discriminate.
  - reflexivity.
Defined.

(** X13.  The errors of the constructor: when [new UBCStrategy] throws, the
    error is the one for missing options, the one for a missing callback,
    the key-file error, the missing-certificate error, or an error thrown by
    the parent constructor; the constructor has no other way to fail. *)
Theorem construct_errors {D R} (w : World) (options : option Opt.t)
    (verify : option (obj -> D -> R)) (e : error) :
  outcome (construct w options verify) = Throw e ->
  e = Error "Options must be provided to UBCStrategy"
  \/ e = Error "Verify callback must be provided to UBCStrategy"
  \/ (exists o p msg,
        options = Some o /\ Opt.privateKeyPath o = Some p
        /\ readFileSync w (absolute_path w p) = inr msg
        /\ e = Error ("Failed to load private key from " +:+ p +:+ ": "
                      +:+ msg))
  \/ e = Error cert_required
  \/ exists samlOptions, SamlStrategy w samlOptions = Throw e.
Proof.
  destruct options as [o|]; [|intros [= <-]; auto].
  destruct verify as [verify|]; [|intros [= <-]; auto].
  destruct (construct_eq w o verify) as (row & _ & ->).
  destruct (load_key_option_cases w o)
    as [[-> _]|(p & Hp & _ & [(c & _ & ->)|(msg & Hr & ->)])].
  - destruct (truthy (Opt.cert o)); [|intros [= <-]; auto].
    destruct (SamlStrategy w _) as [c|e'] eqn:E; [discriminate|].
    intros [= <-]. right. right. right. right. eauto.
  - destruct (truthy (Opt.cert o)); [|intros [= <-]; auto].
    destruct (SamlStrategy w _) as [c'|e'] eqn:E; [discriminate|].
    intros [= <-]. right. right. right. right. eauto.
  - intros [= <-]. right. right. left. exists o, p, msg. auto.
Qed.

Lemma construct_errors_witness :
  Error cert_required = Error "Options must be provided to UBCStrategy"
  \/ Error cert_required
     = Error "Verify callback must be provided to UBCStrategy"
  \/ (exists o p msg,
        Some options_without_cert = Some o /\ Opt.privateKeyPath o = Some p
        /\ readFileSync (world ∅) (absolute_path (world ∅) p) = inr msg
        /\ Error cert_required
           = Error ("Failed to load private key from " +:+ p +:+ ": "
                    +:+ msg))
  \/ Error cert_required = Error cert_required
  \/ exists samlOptions,
       SamlStrategy (world ∅) samlOptions = Throw (Error cert_required).
Proof.
  apply (construct_errors (D:=unit) (R:=value) (world ∅)
           (Some options_without_cert) (Some (fun p _ => VObj p))
           (Error cert_required)).
  reflexivity.
Defined.

(** X14.  Every constructed strategy holds a certificate: when the
    constructor returns, [options.cert] was truthy and is the certificate
    both of [_samlOptions] and of [ubcOptions]; the strategy is named
    [ubcshib], and issuer and callback URL are the ones of the options. *)
Theorem construct_certificate {D R} (w : World) (options : Opt.t)
    (verify : obj -> D -> R) (this : UBCStrategy D R) :
  outcome (construct w (Some options) (Some verify)) = Ok this ->
  truthy (Opt.cert options) = true
  /\ Saml.cert (_samlOptions this) = Opt.cert options
  /\ Ubc.cert (ubcOptions this) = Opt.cert options
  /\ name this = "ubcshib"
  /\ Saml.issuer (_samlOptions this) = Opt.issuer options
  /\ Saml.callbackUrl (_samlOptions this) = Opt.callbackUrl options.
Proof.
  intros H. apply construct_ok_inv in H
    as (row & key & certs0 & _ & _ & _ & Hc & _ & ->).
  repeat split; try reflexivity. exact Hc.
Qed.

Lemma construct_certificate_witness :
  exists this : UBCStrategy unit value,
    outcome (construct (world_with_key ∅ "KEY") (Some options_with_key)
               (Some (fun p _ => VObj p))) = Ok this
    /\ truthy (Opt.cert options_with_key) = true
    /\ Saml.cert (_samlOptions this) = Opt.cert options_with_key
    /\ Ubc.cert (ubcOptions this) = Opt.cert options_with_key
    /\ name this = "ubcshib"
    /\ Saml.issuer (_samlOptions this) = Opt.issuer options_with_key
    /\ Saml.callbackUrl (_samlOptions this)
       = Opt.callbackUrl options_with_key.
Proof.
  eexists. split.
  - vm_compute. reflexivity.
  - apply (construct_certificate (world_with_key ∅ "KEY") options_with_key
             (fun p _ => VObj p)).
    vm_compute. reflexivity.
Defined.

(** X15.  Signing key and decryption key are one: in every constructed
    strategy [privateKey] equals [decryptionPvk]; both are [null] when no
    key path (or an empty one) is given, and otherwise both are the content
    of the file at the resolved path. *)
Theorem construct_keys {D R} (w : World) (options : Opt.t)
    (verify : obj -> D -> R) (this : UBCStrategy D R) :
  outcome (construct w (Some options) (Some verify)) = Ok this ->
  Saml.privateKey (_samlOptions this) = Saml.decryptionPvk (_samlOptions this)
  /\ ((Saml.privateKey (_samlOptions this) = VNull
       /\ (Opt.privateKeyPath options = None
           \/ Opt.privateKeyPath options = Some ""))
      \/ exists p content,
           Opt.privateKeyPath options = Some p /\ p <> ""
           /\ readFileSync w (absolute_path w p) = inl content
           /\ Saml.privateKey (_samlOptions this) = VStr content).
Proof.
  intros H. apply construct_ok_inv in H
    as (row & key & certs0 & _ & _ & Hk & _ & _ & ->).
  split; [reflexivity|]. cbn [_samlOptions saml_options Saml.privateKey].
  destruct (load_key_option_cases w options)
    as [[E Hp]|(p & Hp & Hne & [(c & Hr & E)|(msg & Hr & E)])];
    rewrite E in Hk; cbn in Hk.
  - injection Hk as <-. now left.
  - injection Hk as <-. right. exists p, c. auto.
  - discriminate.
Qed.

Lemma construct_keys_witness :
  exists this : UBCStrategy unit value,
    outcome (construct (world_with_key ∅ "KEY") (Some options_with_key)
               (Some (fun p _ => VObj p))) = Ok this
    /\ Saml.privateKey (_samlOptions this)
       = Saml.decryptionPvk (_samlOptions this)
    /\ ((Saml.privateKey (_samlOptions this) = VNull
         /\ (Opt.privateKeyPath options_with_key = None
             \/ Opt.privateKeyPath options_with_key = Some ""))
        \/ exists p content,
             Opt.privateKeyPath options_with_key = Some p /\ p <> ""
             /\ readFileSync (world_with_key ∅ "KEY")
                  (absolute_path (world_with_key ∅ "KEY") p) = inl content
             /\ Saml.privateKey (_samlOptions this) = VStr content).
Proof.
  eexists. split.
  - vm_compute. reflexivity.
  - apply (construct_keys (world_with_key ∅ "KEY") options_with_key
             (fun p _ => VObj p)).
    vm_compute. reflexivity.
Defined.

(** X16.  For an ASCII [SAML_ENVIRONMENT] (or none), the three IdP URLs of
    a constructed strategy come from the options where the options give a
    truthy value, and otherwise all from one row of [UBC_CONFIG], the row of
    the resolved environment; the stored environment is the upper-cased
    name. *)
Theorem construct_urls {D R} (w : World) (options : Opt.t)
    (verify : obj -> D -> R) (this : UBCStrategy D R) :
  ascii_environment w ->
  outcome (construct w (Some options) (Some verify)) = Ok this ->
  exists row,
    In (environment_row (environment_name w), VObj row) UBC_CONFIG
    /\ Saml.entryPoint (_samlOptions this)
       = js_or (Opt.entryPoint options) (get row "entryPoint")
    /\ Saml.logoutUrl (_samlOptions this)
       = js_or (Opt.logoutUrl options) (get row "logoutUrl")
    /\ Ubc.metadataUrl (ubcOptions this)
       = js_or (Opt.metadataUrl options) (get row "metadataUrl")
    /\ Ubc.environment (ubcOptions this) = environment_name w.
Proof.
  intros _ H. apply construct_ok_inv in H
    as (row & key & certs0 & _ & Hin & _ & _ & _ & ->).
  exists row. repeat split; try reflexivity. exact Hin.
Qed.

Lemma construct_urls_witness :
  exists this : UBCStrategy unit value,
    ascii_environment
      (world_with_key {[ "SAML_ENVIRONMENT" := "production" ]} "KEY")
    /\ outcome (construct
               (world_with_key {[ "SAML_ENVIRONMENT" := "production" ]} "KEY")
               (Some options_with_key) (Some (fun p _ => VObj p))) = Ok this
    /\ exists row,
        In (environment_row
              (environment_name
                 (world_with_key {[ "SAML_ENVIRONMENT" := "production" ]}
                    "KEY")), VObj row) UBC_CONFIG
        /\ Saml.entryPoint (_samlOptions this)
           = js_or (Opt.entryPoint options_with_key) (get row "entryPoint")
        /\ Saml.logoutUrl (_samlOptions this)
           = js_or (Opt.logoutUrl options_with_key) (get row "logoutUrl")
        /\ Ubc.metadataUrl (ubcOptions this)
           = js_or (Opt.metadataUrl options_with_key)
               (get row "metadataUrl")
        /\ Ubc.environment (ubcOptions this)
           = environment_name
               (world_with_key {[ "SAML_ENVIRONMENT" := "production" ]}
                  "KEY").
Proof.
  eexists. split; [|split].
  - vm_compute. reflexivity.
  - vm_compute. reflexivity.
  - apply (construct_urls
             (world_with_key {[ "SAML_ENVIRONMENT" := "production" ]} "KEY")
             options_with_key (fun p _ => VObj p)).
    + vm_compute. reflexivity.
    + vm_compute. reflexivity.
Defined.

(** X17.  Single logout and the [InResponseTo] check are switched off only
    by the boolean [false]: in a constructed strategy [enableSLO] (and
    likewise [validateInResponseTo]) is [false] exactly when the option is
    the value [false], and [true] for every other value, such as
    [undefined], [null], [0] or the empty string. *)
Theorem construct_switches {D R} (w : World) (options : Opt.t)
    (verify : obj -> D -> R) (this : UBCStrategy D R) :
  outcome (construct w (Some options) (Some verify)) = Ok this ->
  (Ubc.enableSLO (ubcOptions this) = VBool false
   <-> Opt.enableSLO options = VBool false)
  /\ (Opt.enableSLO options <> VBool false ->
      Ubc.enableSLO (ubcOptions this) = VBool true)
  /\ (Saml.validateInResponseTo (_samlOptions this) = VBool false
      <-> Opt.validateInResponseTo options = VBool false)
  /\ (Opt.validateInResponseTo options <> VBool false ->
      Saml.validateInResponseTo (_samlOptions this) = VBool true).
Proof.
  intros H. apply construct_ok_inv in H
    as (row & key & certs0 & _ & _ & _ & _ & _ & ->).
  cbn [ubcOptions _samlOptions ubc_options saml_options Ubc.enableSLO
       Saml.validateInResponseTo].
  assert (E : forall v, (not_false v = VBool false <-> v = VBool false)
                        /\ (v <> VBool false -> not_false v = VBool true)).
  { intros v. destruct v as [| |[]| | | | |]; cbn;
      repeat split; intros; try reflexivity; try discriminate;
      try contradiction; try congruence. }
  split; [apply E|]. split; [apply E|]. split; apply E.
Qed.

Lemma construct_switches_witness :
  exists this : UBCStrategy unit value,
    outcome (construct (world_with_key ∅ "KEY") (Some options_with_key)
               (Some (fun p _ => VObj p))) = Ok this
    /\ (Ubc.enableSLO (ubcOptions this) = VBool false
        <-> Opt.enableSLO options_with_key = VBool false)
    /\ (Opt.enableSLO options_with_key <> VBool false ->
        Ubc.enableSLO (ubcOptions this) = VBool true)
    /\ (Saml.validateInResponseTo (_samlOptions this) = VBool false
        <-> Opt.validateInResponseTo options_with_key = VBool false)
    /\ (Opt.validateInResponseTo options_with_key <> VBool false ->
        Saml.validateInResponseTo (_samlOptions this) = VBool true).
Proof.
  eexists. split.
  - vm_compute. reflexivity.
  - apply (construct_switches (world_with_key ∅ "KEY") options_with_key
             (fun p _ => VObj p)).
    vm_compute. reflexivity.
Defined.

(** X18.  The callback that a constructed strategy hands to the SAML
    engine calls the application's callback once, with the completion
    function it was given: on a copy of the profile that carries under
    [attributes] the result of [mapAttributes] for the configured names
    when [attributeConfig] is a non-empty list, and on the profile as it is
    when [attributeConfig] is missing or empty. *)
Theorem construct_verify {D R} (w : World) (options : Opt.t)
    (verify : obj -> D -> R) (this : UBCStrategy D R)
    (profile : obj) (done : D) :
  outcome (construct w (Some options) (Some verify)) = Ok this ->
  wf_obj profile ->
  _verify this profile done
  = verify (mapped_profile (Opt.attributeConfig options) profile) done.
Proof.
  intros H Hwf. apply construct_ok_inv in H
    as (row & key & certs0 & _ & _ & _ & _ & _ & ->).
  cbn [_verify]. unfold wrappedVerify, mapped_profile.
  rewrite spread_wf by exact Hwf.
  destruct (Opt.attributeConfig options) as [[|a l]|]; reflexivity.
Qed.

Lemma construct_verify_witness :
  exists this : UBCStrategy unit value,
    outcome (construct (world_with_key ∅ "KEY") (Some options_with_key)
               (Some (fun p _ => VObj p))) = Ok this
    /\ _verify this [("nameID", VStr "u1"); (oid_mail, VStr "a@ubc.ca")] tt
       = VObj (mapped_profile (Opt.attributeConfig options_with_key)
                 [("nameID", VStr "u1"); (oid_mail, VStr "a@ubc.ca")]).
Proof.
  eexists. split.
  - vm_compute. reflexivity.
  - apply (construct_verify (world_with_key ∅ "KEY") options_with_key
             (fun p _ => VObj p)).
    + vm_compute. reflexivity.
    + vm_compute. repeat constructor; rewrite list_elem_of_In; simpl;
        intuition discriminate.
Defined.

End StrategyLaws.

Module RuntimeLaws.
Import JS Attributes Strategy Notions Terms JSFacts StrategyFacts
       CertificateFacts StrategyLaws.

(** X19.  [_fetchCertificate] either installs a certificate or logs and
    changes nothing, never both.  When the fetch succeeds nothing is logged,
    the certificate put into [_samlOptions] is a non-empty run of base64
    characters, and [certs] is replaced by the one-element list of that
    certificate only if it was truthy before; when the fetch fails (a
    transport error or metadata without a certificate) one line goes to
    [console.error] and the strategy stays as it was.  Name, [ubcOptions]
    and the callback are never touched. *)
Theorem fetchCertificate_settles {D R} (this : UBCStrategy D R)
    (o : net_outcome) :
  name (snd (_fetchCertificate this o)) = name this
  /\ ubcOptions (snd (_fetchCertificate this o)) = ubcOptions this
  /\ _verify (snd (_fetchCertificate this o)) = _verify this
  /\ ((fst (_fetchCertificate this o) = []
       /\ exists cert,
           fetchIdPCertificate o = Ok cert
           /\ cert <> "" /\ all_base64 cert = true
           /\ _samlOptions (snd (_fetchCertificate this o))
              = Saml.with_cert (_samlOptions this) (VStr cert)
           /\ certs (snd (_fetchCertificate this o))
              = (if truthy (certs this) then VArr [VStr cert]
                 else certs this))
      \/ (snd (_fetchCertificate this o) = this
          /\ exists e,
              fetchIdPCertificate o = Throw e
              /\ fst (_fetchCertificate this o)
                 = [ConsoleError [VStr "Failed to fetch IdP certificate:";
                                  VStr (message e)]])).
Proof.
  unfold _fetchCertificate.
  destruct (fetchIdPCertificate o) as [cert|e] eqn:E; cbn.
  - split; [reflexivity|]. split; [reflexivity|]. split; [reflexivity|].
    left. split; [reflexivity|]. exists cert.
    assert (Hb : cert <> "" /\ all_base64 cert = true).
    { destruct o as [m|data]; [discriminate|].
      now apply (extractCertFromMetadata_base64 data). }
    destruct Hb. repeat split; assumption || reflexivity.
  - split; [reflexivity|]. split; [reflexivity|]. split; [reflexivity|].
    right. split; [reflexivity|]. now exists e.
Qed.

Lemma recognized_own (environment : string) :
  recognized environment = false -> own UBC_CONFIG environment = None.
Proof.
  unfold recognized, UBC_CONFIG. cbn [own].
  rewrite !orb_false_iff. intros [[H1 H2] H3].
  rewrite (String.eqb_sym "LOCAL"), H1, (String.eqb_sym "STAGING"), H2,
    (String.eqb_sym "PRODUCTION"), H3.
  reflexivity.
Qed.

Lemma recognized_row (environment : string) :
  recognized environment = true ->
  get UBC_CONFIG environment = resolve_config environment.
Proof.
  unfold recognized. rewrite !orb_true_iff, !String.eqb_eq.
  intros [[->| ->]| ->]; reflexivity.
Qed.

(** X20.  [logout] needs a logout URL before it touches the session: for an
    ASCII [SAML_ENVIRONMENT] (or none), when [SAML_LOGOUT_URL] is unset or
    empty and the upper-cased environment name is not a key of
    [UBC_CONFIG], the middleware throws a [TypeError] and has neither ended
    the session nor redirected. *)
Theorem logout_unresolved (w : World) (returnUrl : string) (err : value) :
  ascii_environment w ->
  truthy (getenv w "SAML_LOGOUT_URL") = false ->
  recognized (environment_name w) = false ->
  logout w returnUrl err
  = ([], Throw (TypeError
                  "Cannot read properties of undefined (reading 'logoutUrl')")).
Proof.
  intros _ Hu Hr. unfold logout, or_else. rewrite Hu.
  assert (E : get UBC_CONFIG (environment_name w) = VUndefined).
  { unfold get. rewrite (recognized_own _ Hr).
    destruct (environment_name_upper w) as [s ->].
    unfold inherited. now rewrite toUpperCase_not_prototype. }
  rewrite E. reflexivity.
Qed.

Lemma logout_unresolved_witness :
  logout (world {[ "SAML_ENVIRONMENT" := "prod" ]}) "/goodbye" VUndefined
  = ([], Throw (TypeError
                  "Cannot read properties of undefined (reading 'logoutUrl')")).
Proof.
  apply (logout_unresolved (world {[ "SAML_ENVIRONMENT" := "prod" ]})
           "/goodbye" VUndefined).
  - vm_compute. reflexivity.
  - vm_compute. reflexivity.
  - vm_compute. reflexivity.
Defined.

(** X21.  For an ASCII [SAML_ENVIRONMENT] (or none), when [SAML_LOGOUT_URL]
    is set (and not empty) or the environment name is recognized, [logout]
    ends the session first, prints the error that [req.logout] reports, if
    any, and in either case redirects, once: to [SAML_LOGOUT_URL] if set,
    else to the [logoutUrl] of the row that the constructor resolves for
    the same environment.  The target is never empty, and what the
    middleware does is the same for every [returnUrl]. *)
Theorem logout_resolved (w : World) (returnUrl : string) (err : value) :
  ascii_environment w ->
  truthy (getenv w "SAML_LOGOUT_URL") = true
  \/ recognized (environment_name w) = true ->
  exists row,
    resolve_config (environment_name w) = VObj row
    /\ logout w returnUrl err
       = (SessionLogout
          :: logout_log err
          ++ [Redirect (js_or (getenv w "SAML_LOGOUT_URL")
                          (get row "logoutUrl"))],
          Ok tt)
    /\ truthy (js_or (getenv w "SAML_LOGOUT_URL") (get row "logoutUrl"))
       = true
    /\ forall returnUrl', logout w returnUrl' err = logout w returnUrl err.
Proof.
  intros _ H.
  destruct (resolve_environment w) as (row & Hrow & Hin).
  exists row. split; [exact Hrow|].
  assert (Ht : truthy (js_or (getenv w "SAML_LOGOUT_URL")
                         (get row "logoutUrl")) = true).
  { unfold js_or.
    destruct (truthy (getenv w "SAML_LOGOUT_URL")) eqn:Hu; [exact Hu|].
    unfold UBC_CONFIG in Hin. simpl in Hin.
    destruct Hin as [Hin|[Hin|[Hin|[]]]]; injection Hin as _ <-;
      reflexivity. }
  split; [|split; [exact Ht | reflexivity]].
  unfold logout, or_else, js_or, logout_log.
  destruct (truthy (getenv w "SAML_LOGOUT_URL")) eqn:Hu.
  - destruct (truthy err); reflexivity.
  - destruct H as [H|H]; [discriminate|].
    rewrite (recognized_row _ H), Hrow.
    destruct (truthy err); reflexivity.
Qed.

Lemma logout_resolved_witness :
  exists row,
    resolve_config
      (environment_name
         (world {[ "SAML_LOGOUT_URL" := "https://idp.example/logout" ]}))
    = VObj row
    /\ logout (world {[ "SAML_LOGOUT_URL" := "https://idp.example/logout" ]})
         "/goodbye" (VStr "session store down")
       = (SessionLogout
          :: logout_log (VStr "session store down")
          ++ [Redirect
                (js_or
                   (getenv
                      (world
                         {[ "SAML_LOGOUT_URL" := "https://idp.example/logout" ]})
                      "SAML_LOGOUT_URL")
                   (get row "logoutUrl"))],
          Ok tt)
    /\ truthy
         (js_or
            (getenv
               (world {[ "SAML_LOGOUT_URL" := "https://idp.example/logout" ]})
               "SAML_LOGOUT_URL")
            (get row "logoutUrl")) = true
    /\ forall returnUrl',
         logout (world {[ "SAML_LOGOUT_URL" := "https://idp.example/logout" ]})
           returnUrl' (VStr "session store down")
         = logout
             (world {[ "SAML_LOGOUT_URL" := "https://idp.example/logout" ]})
             "/goodbye" (VStr "session store down").
Proof.
  apply (logout_resolved
           (world {[ "SAML_LOGOUT_URL" := "https://idp.example/logout" ]})
           "/goodbye" (VStr "session store down")).
  - vm_compute. exact I.
  - left. vm_compute. reflexivity.
Defined.

End RuntimeLaws.

(** ** Further properties of the certificate extraction *)

Module CertificateLaws.
Import JS Strategy Notions Terms CertificateFacts.

#[local] Arguments String.append !s1 s2 : simpl nomatch.

Lemma count_char_append (c : ascii) (a b : string) :
  count_char c (a +:+ b) = count_char c a + count_char c b.
Proof.
  induction a as [|x a IH]; simpl; [reflexivity|]. rewrite IH. lia.
Qed.

Lemma strip_prefix_head (p s r : string) (c : ascii) :
  strip_prefix (String c p) s = Some r -> exists s', s = String c s'.
Proof.
  destruct s as [|x s]; simpl; [discriminate|].
  destruct (Ascii.eqb_spec c x) as [->|]; [eauto | discriminate].
Qed.

(** A prefix found in [a +:+ t] is found in [a] already, or [a] is a proper
    start of it and the rest starts [t]. *)
Lemma strip_prefix_append_inv (p a t r : string) :
  strip_prefix p (a +:+ t) = Some r ->
  (exists r', strip_prefix p a = Some r')
  \/ (exists p2, p = a +:+ p2 /\ p2 <> ""
                 /\ exists r', strip_prefix p2 t = Some r').
Proof.
  revert a. induction p as [|c p IH]; intros a H.
  - left. simpl. eauto.
  - destruct a as [|x a].
    + right. exists (String c p). simpl in *. split; [reflexivity|].
      split; [discriminate | eauto].
    + simpl in H. simpl.
      destruct (Ascii.eqb_spec c x) as [->|]; [|discriminate].
      destruct (IH a H) as [Hl|(p2 & -> & Hne & Hr)]; [now left|].
      right. exists p2. auto.
Qed.

(** The opening tag cannot start inside [a] and run over into a text that
    itself starts with its first character. *)
Lemma open_tag_no_overlap (a t : string) :
  a <> "" ->
  strip_prefix "<ds:X509Certificate" a = None ->
  strip_prefix "<ds:X509Certificate" (a +:+ String "<" t) = None.
Proof.
  intros Ha Hnone.
  destruct (strip_prefix "<ds:X509Certificate" (a +:+ String "<" t))
    as [r|] eqn:E; [|reflexivity].
  exfalso.
  apply strip_prefix_append_inv in E
    as [[r' Hr]|(p2 & Hp & Hne & r' & Hr)]; [congruence|].
  assert (Hc : count_char "<" (a +:+ p2) = 1) by now rewrite <- Hp.
  rewrite count_char_append in Hc.
  destruct a as [|x a]; [contradiction|].
  destruct p2 as [|y p2]; [contradiction|].
  simpl in Hp. injection Hp as <- _.
  simpl in Hr. destruct (Ascii.eqb_spec y "<") as [->|]; [|discriminate].
  simpl in Hc. lia.
Qed.

(** The search skips a text in which the opening tag does not occur. *)
Lemma regex_match_skip (pre t : string) :
  contains "<ds:X509Certificate" pre = false ->
  regex_match cert_regex (pre +:+ String "<" t)
  = regex_match cert_regex (String "<" t).
Proof.
  intros Hpre. induction pre as [|c pre IH]; [reflexivity|].
  cbn [contains] in Hpre.
  destruct (strip_prefix "<ds:X509Certificate" (String c pre)) eqn:Es;
    [discriminate|].
  change (String c pre +:+ String "<" t)
    with (String c (pre +:+ String "<" t)).
  cbn [regex_match].
  assert (Em : match_here cert_regex EmptyString
                 (String c (pre +:+ String "<" t)) = None).
  { unfold cert_regex. cbn [match_here].
    change (String c (pre +:+ String "<" t))
      with (String c pre +:+ String "<" t).
    rewrite open_tag_no_overlap; [reflexivity | discriminate | exact Es]. }
  rewrite Em. now apply IH.
Qed.

Lemma star_longest (cls : ascii -> bool) (k : string -> option string)
    (run s r : string) :
  forallb cls (list_ascii_of_string run) = true ->
  stops cls s = true ->
  k s = Some r ->
  star cls k (run +:+ s) = Some r.
Proof.
  intros Hall Hs Hk. induction run as [|c run IH].
  - simpl. now rewrite star_stops.
  - simpl in Hall. apply andb_prop in Hall as [Ec Hall].
    simpl. rewrite Ec. now rewrite IH.
Qed.

(** X22.  The first certificate element decides: in a document where the
    opening tag [<ds:X509Certificate] first occurs followed by any
    attributes, [>], a non-empty run of base64 characters and the closing
    tag, [extractCertFromMetadata] returns that run, whatever follows (a
    second certificate, for instance, is ignored). *)
Theorem extractCertFromMetadata_first_element
    (pre attrs cert rest : string) :
  contains "<ds:X509Certificate" pre = false ->
  forallb not_gt (list_ascii_of_string attrs) = true ->
  cert <> "" ->
  all_base64 cert = true ->
  extractCertFromMetadata
    (pre +:+ "<ds:X509Certificate" +:+ attrs +:+ ">" +:+ cert
     +:+ "</ds:X509Certificate>" +:+ rest)
  = Ok cert.
Proof.
  intros Hpre Hattrs Hne Hall. unfold extractCertFromMetadata.
  change ("<ds:X509Certificate" +:+ attrs +:+ ">" +:+ cert
          +:+ "</ds:X509Certificate>" +:+ rest)
    with (String "<" ("ds:X509Certificate" +:+ attrs +:+ ">" +:+ cert
                      +:+ "</ds:X509Certificate>" +:+ rest)).
  rewrite regex_match_skip by exact Hpre.
  change (String "<" ("ds:X509Certificate" +:+ attrs +:+ ">" +:+ cert
                      +:+ "</ds:X509Certificate>" +:+ rest))
    with ("<ds:X509Certificate" +:+ attrs +:+ ">" +:+ cert
          +:+ "</ds:X509Certificate>" +:+ rest).
  rewrite (regex_match_here _ _ cert).
  - destruct (String.eqb_spec cert ""); [contradiction | reflexivity].
  - unfold cert_regex. rewrite match_here_lit, match_here_star.
    apply star_longest; [exact Hattrs | reflexivity |].
    rewrite match_here_lit, match_here_group.
    apply plus_longest; try assumption.
    + destruct rest; reflexivity.
    + change (EmptyString +:+ cert) with cert.
      now rewrite match_here_lit.
Qed.

Lemma extractCertFromMetadata_first_element_witness :
  extractCertFromMetadata
    ("<md:KeyDescriptor use='signing'><ds:KeyInfo><ds:X509Data>"
     +:+ "<ds:X509Certificate" +:+ " xmlns:ds='http://www.w3.org/2000/09/xmldsig#'"
     +:+ ">" +:+ "MIIDHzCCAgegAwIBAgIUQ0dV"
     +:+ "</ds:X509Certificate>"
     +:+ "<ds:X509Certificate>ROLLOVERCERT</ds:X509Certificate></ds:X509Data>")
  = Ok "MIIDHzCCAgegAwIBAgIUQ0dV".
Proof.
  apply (extractCertFromMetadata_first_element
           "<md:KeyDescriptor use='signing'><ds:KeyInfo><ds:X509Data>"
           " xmlns:ds='http://www.w3.org/2000/09/xmldsig#'"
           "MIIDHzCCAgegAwIBAgIUQ0dV"
           "<ds:X509Certificate>ROLLOVERCERT</ds:X509Certificate></ds:X509Data>").
  - reflexivity.
  - reflexivity.
  - discriminate.
  - reflexivity.
Defined.

(** X23.  What [extractCertFromMetadata] returns is never padded: a
    returned certificate is a non-empty string of the characters
    [A-Za-z0-9+/=] only, so it holds no white space, and the document it
    comes from contains the opening tag. *)
Theorem extractCertFromMetadata_clean (metadataXml cert : string) :
  extractCertFromMetadata metadataXml = Ok cert ->
  cert <> ""
  /\ all_base64 cert = true
  /\ contains "<ds:X509Certificate" metadataXml = true.
Proof.
  intros H.
  destruct (extractCertFromMetadata_base64 metadataXml cert H) as [Hne Hb].
  repeat split; try assumption.
  destruct (contains "<ds:X509Certificate" metadataXml) eqn:E;
    [reflexivity|].
  rewrite (extractCertFromMetadata_no_element _ E) in H. discriminate.
Qed.

Lemma extractCertFromMetadata_clean_witness :
  "MIIDHzCCAgegAwIBAgIUQ0dVbGliMB4XDTI0" <> ""
  /\ all_base64 "MIIDHzCCAgegAwIBAgIUQ0dVbGliMB4XDTI0" = true
  /\ contains "<ds:X509Certificate" metadata_inline = true.
Proof.
  apply (extractCertFromMetadata_clean metadata_inline
           "MIIDHzCCAgegAwIBAgIUQ0dVbGliMB4XDTI0").
  vm_compute. reflexivity.
Defined.

(** X24.  [extractCertFromMetadata] has one way to fail: whenever it
    throws, the error is "No X509Certificate found in IdP metadata"; and it
    does throw on every document in which the opening tag
    [<ds:X509Certificate] does not occur, the empty document included. *)
Theorem extractCertFromMetadata_failure (metadataXml : string) :
  (forall e, extractCertFromMetadata metadataXml = Throw e ->
             e = Error "No X509Certificate found in IdP metadata")
  /\ (contains "<ds:X509Certificate" metadataXml = false ->
      extractCertFromMetadata metadataXml
      = Throw (Error "No X509Certificate found in IdP metadata")).
Proof.
  split.
  - intros e. unfold extractCertFromMetadata.
    destruct (regex_match cert_regex metadataXml) as [g|].
    + destruct (String.eqb g ""); [now intros [= <-] | discriminate].
    + now intros [= <-].
  - apply extractCertFromMetadata_no_element.
Qed.

End CertificateLaws.

(** ** The route guards and the example application *)

Module GuardLaws.
Import JS Attributes Strategy Notions Terms JSFacts Middleware.

(** X25.  [conditionalAuth] is [ensureAuthenticated] behind a condition:
    on a request for which [checkFn] answers truthy it does what
    [ensureAuthenticated()] (no options) does, and on every other request
    it calls [next()] without looking at the session. *)
Theorem conditionalAuth_ensureAuthenticated {Req : Type}
    (isAuthenticated : Req -> bool) (checkFn : Req -> value) (req : Req) :
  Ok (conditionalAuth isAuthenticated checkFn req)
  = if truthy (checkFn req)
    then ensureAuthenticated VUndefined (isAuthenticated req)
    else Ok Next.
Proof.
  unfold conditionalAuth, ensureAuthenticated.
  destruct (truthy (checkFn req)); [|reflexivity].
  now destruct (isAuthenticated req).
Qed.

(** X26.  [ensureAuthenticated] lets every authenticated request through,
    whatever its options; an unauthenticated request is redirected, for
    every options value other than [null], to [options.loginUrl] when the
    options are an object whose [loginUrl] is truthy, and to
    ['/auth/ubcshib'] in every other case (no options, no [loginUrl], an
    empty one); the login URL is never empty. *)
Theorem ensureAuthenticated_redirect (options : value) :
  ensureAuthenticated options true = Ok Next
  /\ (options <> VNull ->
      ensureAuthenticated options false
      = Ok (RedirectTo
              match options with
              | VObj o =>
                  if truthy (get o "loginUrl") then get o "loginUrl"
                  else VStr "/auth/ubcshib"
              | _ => VStr "/auth/ubcshib"
              end)
      /\ truthy
           match options with
           | VObj o =>
               if truthy (get o "loginUrl") then get o "loginUrl"
               else VStr "/auth/ubcshib"
           | _ => VStr "/auth/ubcshib"
           end = true).
Proof.
  split; [reflexivity|].
  intros Hn. unfold ensureAuthenticated.
  destruct options as [| |b|n|s|l|o|f]; try contradiction;
    try (split; reflexivity).
  cbn [member]. unfold js_or.
  destruct (truthy (get o "loginUrl")) eqn:E; split;
    try reflexivity; exact E.
Qed.

Lemma ensureAuthenticated_redirect_witness :
  (ensureAuthenticated (VObj [("loginUrl", VStr "/login")]) true = Ok Next
   /\ (VObj [("loginUrl", VStr "/login")] <> VNull ->
       ensureAuthenticated (VObj [("loginUrl", VStr "/login")]) false
       = Ok (RedirectTo (VStr "/login"))
       /\ truthy (VStr "/login") = true))
  /\ (ensureAuthenticated (VObj [("loginUrl", VStr "")]) true = Ok Next
      /\ (VObj [("loginUrl", VStr "")] <> VNull ->
          ensureAuthenticated (VObj [("loginUrl", VStr "")]) false
          = Ok (RedirectTo (VStr "/auth/ubcshib"))
          /\ truthy (VStr "/auth/ubcshib") = true)).
Proof.
  split.
  - apply (ensureAuthenticated_redirect (VObj [("loginUrl", VStr "/login")])).
  - apply (ensureAuthenticated_redirect (VObj [("loginUrl", VStr "")])).
Defined.

(** X27.  The identity callback of the example application, handed to the
    strategy with the example's six attribute names, never throws: for
    every profile it prints one line and calls [done(null, user)], where
    the fields of [user] are read from the mapped attributes ([undefined]
    for an attribute the assertion does not carry) and [nameID] from the
    profile. *)
Theorem example_verify_wrapped {A : Type} (profile : obj)
    (done : value -> value -> A) :
  wf_obj profile ->
  wrappedVerify ExampleApp.attributeConfig ExampleApp.verify profile done
  = let mapped :=
      mapAttributes (Some profile) (Some ExampleApp.attributeConfig) in
    ([ ExampleApp.ConsoleLog
         [ VStr "SAML Profile received:";
           VObj [ ("nameID", get profile "nameID");
                  ("attributes", VObj mapped) ] ] ],
     Ok (done VNull
           (VObj [ ("id", get mapped "ubcEduCwlPuid");
                   ("nameID", get profile "nameID");
                   ("email", get mapped "mail");
                   ("name", get mapped "displayName");
                   ("affiliation", get mapped "eduPersonAffiliation");
                   ("attributes", VObj mapped) ]))).
Proof.
  intros Hwf. unfold wrappedVerify. rewrite spread_wf by exact Hwf.
  cbn [ExampleApp.attributeConfig length Nat.ltb Nat.leb].
  rewrite assign_set by discriminate.
  unfold ExampleApp.verify.
  assert (Ha : forall v, get (set profile "attributes" v) "attributes" = v).
  { intros v. unfold get. now rewrite own_set_eq. }
  assert (Hn : forall v, get (set profile "attributes" v) "nameID"
                         = get profile "nameID").
  { intros v. unfold get. now rewrite own_set_ne by discriminate. }
  rewrite Ha, Hn. reflexivity.
Qed.

Lemma example_verify_wrapped_witness :
  wrappedVerify ExampleApp.attributeConfig ExampleApp.verify
    [("nameID", VStr "u1"); (oid_mail, VStr "a@ubc.ca")]
    (fun err user => user)
  = let mapped :=
      mapAttributes (Some [("nameID", VStr "u1"); (oid_mail, VStr "a@ubc.ca")])
        (Some ExampleApp.attributeConfig) in
    ([ ExampleApp.ConsoleLog
         [ VStr "SAML Profile received:";
           VObj [ ("nameID",
                   get [("nameID", VStr "u1"); (oid_mail, VStr "a@ubc.ca")]
                     "nameID");
                  ("attributes", VObj mapped) ] ] ],
     Ok (VObj [ ("id", get mapped "ubcEduCwlPuid");
                ("nameID",
                 get [("nameID", VStr "u1"); (oid_mail, VStr "a@ubc.ca")]
                   "nameID");
                ("email", get mapped "mail");
                ("name", get mapped "displayName");
                ("affiliation", get mapped "eduPersonAffiliation");
                ("attributes", VObj mapped) ])).
Proof.
  apply (example_verify_wrapped
           [("nameID", VStr "u1"); (oid_mail, VStr "a@ubc.ca")]
           (fun err user => user)).
  vm_compute. repeat constructor; rewrite list_elem_of_In; simpl;
    intuition discriminate.
Defined.

(** X28.  The same callback depends on the mapping: handed to the strategy
    with an empty list of attribute names, on a profile that has no
    [attributes] field, it prints its line and then throws a [TypeError]
    instead of calling [done]. *)
Theorem example_verify_unmapped {A : Type} (profile : obj)
    (done : value -> value -> A) :
  wf_obj profile ->
  own profile "attributes" = None ->
  wrappedVerify [] ExampleApp.verify profile done
  = ([ ExampleApp.ConsoleLog
         [ VStr "SAML Profile received:";
           VObj [ ("nameID", get profile "nameID");
                  ("attributes", VUndefined) ] ] ],
     Throw (TypeError
              "Cannot read properties of undefined (reading 'ubcEduCwlPuid')")).
Proof.
  intros Hwf Hn. unfold wrappedVerify. rewrite spread_wf by exact Hwf.
  cbn [length Nat.ltb Nat.leb]. unfold ExampleApp.verify.
  assert (Ha : get profile "attributes" = VUndefined).
  { unfold get. now rewrite Hn. }
  rewrite Ha. reflexivity.
Qed.

Lemma example_verify_unmapped_witness :
  wrappedVerify [] ExampleApp.verify
    [("nameID", VStr "u1"); (oid_mail, VStr "a@ubc.ca")]
    (fun err user => user)
  = ([ ExampleApp.ConsoleLog
         [ VStr "SAML Profile received:";
           VObj [ ("nameID",
                   get [("nameID", VStr "u1"); (oid_mail, VStr "a@ubc.ca")]
                     "nameID");
                  ("attributes", VUndefined) ] ] ],
     Throw (TypeError
              "Cannot read properties of undefined (reading 'ubcEduCwlPuid')")).
Proof.
  apply (example_verify_unmapped
           [("nameID", VStr "u1"); (oid_mail, VStr "a@ubc.ca")]
           (fun err user => user)).
  - vm_compute. repeat constructor; rewrite list_elem_of_In; simpl;
      intuition discriminate.
  - reflexivity.
Defined.

End GuardLaws.
